(** * Telemetry aggregation core of [mavsdk_datafetch.py]

    A shallow embedding of the script's shared state (the module-level
    [telemetry_data] dictionary, [error_list], [filename]), of its ten
    cooperative tasks (eight stream fetchers, [display_loop],
    [log_to_csv]) and of the supervisor coroutine [run], as a labelled
    step function of the asyncio scheduler: one step is the code a task
    executes between two suspension points. *)

From stdpp Require Import base list strings.
From Stdlib Require Import ZArith Lia Ascii DecimalString.

Local Open Scope string_scope.
Local Open Scope list_scope.
Local Open Scope Z_scope.

(** ** Python strings *)

Module PyStr.

(** [str.replace(old, new)] for a non-empty [old]: scan from the left,
    every occurrence found is replaced and the scan resumes behind it.
    [skip] counts the characters of a matched occurrence still to drop. *)
Fixpoint replace_from (old new : string) (skip : nat) (s : string) : string :=
  match s with
  | EmptyString => EmptyString
  | String c rest =>
      match skip with
      | S k => replace_from old new k rest
      | O =>
          if String.prefix old s
          then new +:+ replace_from old new (Nat.pred (String.length old)) rest
          else String c (replace_from old new O rest)
      end
  end.

Definition replace (old new s : string) : string := replace_from old new O s.


Definition lower_ascii (c : ascii) : ascii :=
  let n := Ascii.nat_of_ascii c in
  if (65 <=? n)%nat && (n <=? 90)%nat then Ascii.ascii_of_nat (n + 32) else c.

(** [str.lower()] on ASCII text (the keys it is applied to are ASCII). *)
Fixpoint lower (s : string) : string :=
  match s with
  | EmptyString => EmptyString
  | String c rest => String (lower_ascii c) (lower rest)
  end.

Fixpoint repeat_char (c : ascii) (n : nat) : string :=
  match n with
  | O => EmptyString
  | S k => String c (repeat_char c k)
  end.

(** The format spec [:<w]: left-justify in a field of width [w]. *)
Definition ljust (w : nat) (s : string) : string :=
  s +:+ repeat_char " "%char (w - String.length s).

(** [l[-n:]] for a positive [n]. *)
Definition last_n {A} (n : nat) (l : list A) : list A :=
  drop (length l - n) l.

End PyStr.

(** ** Number and time formatting *)

Module PyFmt.

Definition digit (d : Z) : ascii := Ascii.ascii_of_nat (48 + Z.to_nat (d mod 10)).

(** The last [n] decimal digits of [x], zero padded, in front of [acc]. *)
Fixpoint fixed_digits (n : nat) (x : Z) (acc : string) : string :=
  match n with
  | O => acc
  | S k => fixed_digits k (x / 10) (String (digit x) acc)
  end.

Definition pad2 (x : Z) : string := fixed_digits 2 x "".
Definition pad4 (x : Z) : string := fixed_digits 4 x "".

(** [str(i)] of an integer. *)
Definition str_of_int (z : Z) : string := NilZero.string_of_int (Z.to_int z).

(** A Python float: a finite binary floating point number is exactly
    [(-1)^neg * m * 2^e]; the other values are the infinities and NaN. *)
Inductive pyfloat :=
| FFinite (neg : bool) (m : N) (e : Z)
| FInf (neg : bool)
| FNan.

(** Round the exact value [m * 2^e * 10^n] to the nearest integer, ties
    to even (the rounding of the [f] presentation type). *)
Definition scaled_round (n : nat) (m : N) (e : Z) : Z :=
  let num := Z.of_N m * 10 ^ Z.of_nat n in
  if 0 <=? e then num * 2 ^ e
  else
    let den := 2 ^ (- e) in
    let q := num / den in
    let r := num mod den in
    if (den <? 2 * r) || ((2 * r =? den) && Z.odd q) then q + 1 else q.

(** The format spec [:.<n>f]. *)
Definition format_f (n : nat) (x : pyfloat) : string :=
  match x with
  | FNan => "nan"
  | FInf neg => if neg then "-inf" else "inf"
  | FFinite neg m e =>
      let r := scaled_round n m e in
      let p := 10 ^ Z.of_nat n in
      (if neg then "-" else "") +:+ str_of_int (r / p) +:+
      match n with
      | O => ""
      | S _ => "." +:+ fixed_digits n (r mod p) ""
      end
  end.

(** Wall clock: [t] counts seconds from 1970-01-01 00:00:00 local
    time; [civil] is its calendar date. *)
Definition civil (t : Z) : Z * Z * Z :=
  let z := t / 86400 + 719468 in
  let era := z / 146097 in
  let doe := z mod 146097 in
  let yoe := (doe - doe / 1460 + doe / 36524 - doe / 146096) / 365 in
  let doy := doe - (365 * yoe + yoe / 4 - yoe / 100) in
  let mp := (5 * doy + 2) / 153 in
  let d := doy - (153 * mp + 2) / 5 + 1 in
  let m := if mp <? 10 then mp + 3 else mp - 9 in
  let y := yoe + era * 400 + (if m <=? 2 then 1 else 0) in
  (y, m, d).

Definition hour (t : Z) : Z := (t mod 86400) / 3600.
Definition minute (t : Z) : Z := (t mod 3600) / 60.
Definition second (t : Z) : Z := t mod 60.

(** [datetime.now().strftime("%H:%M:%S")] *)
Definition strftime_HMS (t : Z) : string :=
  pad2 (hour t) +:+ ":" +:+ pad2 (minute t) +:+ ":" +:+ pad2 (second t).

(** [datetime.now().strftime("%Y%m%d_%H%M%S")] *)
Definition strftime_stamp (t : Z) : string :=
  let '(y, m, d) := civil t in
  pad4 y +:+ pad2 m +:+ pad2 d +:+ "_" +:+
  pad2 (hour t) +:+ pad2 (minute t) +:+ pad2 (second t).

(** [datetime.now().isoformat()] at a whole second. *)
Definition isoformat (t : Z) : string :=
  let '(y, m, d) := civil t in
  pad4 y +:+ "-" +:+ pad2 m +:+ "-" +:+ pad2 d +:+ "T" +:+ strftime_HMS t.

End PyFmt.

Import PyFmt.

(** ** Dictionaries and the object store *)

(** A value held in a dictionary: a [str], an [int], or a reference to
    another dictionary object. *)
Inductive value :=
| VStr (s : string)
| VInt (z : Z)
| VDict (r : nat).

(** [v == "N/A"] *)
Definition is_na (v : value) : bool :=
  match v with
  | VStr s => String.eqb s "N/A"
  | _ => false
  end.

(** A [dict] with [str] keys, in insertion order. *)
Abbreviation pydict := (list (string * value)).

Fixpoint dict_get (k : string) (d : pydict) : option value :=
  match d with
  | [] => None
  | (k', v) :: rest => if String.eqb k' k then Some v else dict_get k rest
  end.

(** [d[k] = v]: an existing key keeps its place, a new key goes last. *)
Fixpoint dict_set (k : string) (v : value) (d : pydict) : pydict :=
  match d with
  | [] => [(k, v)]
  | (k', v') :: rest =>
      if String.eqb k' k then (k', v) :: rest else (k', v') :: dict_set k v rest
  end.

Fixpoint dict_del (k : string) (d : pydict) : pydict :=
  match d with
  | [] => []
  | (k', v') :: rest => if String.eqb k' k then rest else (k', v') :: dict_del k rest
  end.

Definition dict_keys (d : pydict) : list string := d.*1.

(** The objects of the interpreter: dictionaries addressed by their
    position; an allocation appends. *)
Abbreviation heap_t := (list pydict).

Definition alloc (d : pydict) (h : heap_t) : nat * heap_t := (length h, h ++ [d]).

(** [obj.copy()]: a new dictionary object with the entries of the one
    at [r]; a nested dictionary is shared, not copied. *)
Definition copy (r : nat) (h : heap_t) : option (nat * heap_t) :=
  d ← h !! r; Some (alloc d h).

(** [obj[k] = v] on the dictionary object at [r]. *)
Definition setitem (r : nat) (k : string) (v : value) (h : heap_t) : heap_t :=
  alter (dict_set k v) r h.

(** ** Telemetry items delivered by the subscriptions *)

Record Position := {
  latitude_deg : pyfloat;
  longitude_deg : pyfloat;
  absolute_altitude_m : pyfloat;
  relative_altitude_m : pyfloat }.

Record EulerAngle := {
  roll_deg : pyfloat;
  pitch_deg : pyfloat;
  yaw_deg : pyfloat }.

Record Battery := {
  voltage_v : pyfloat;
  remaining_percent : pyfloat }.

(** [fix_type] is the label [str(gps.fix_type)] of the enumerated value. *)
Record GpsInfo := {
  num_satellites : Z;
  fix_type : string }.

(** [signal_strength_percent] is [None] when reading or formatting the
    attribute raises. *)
Record RcStatus := {
  signal_strength_percent : option pyfloat }.

Record Health := {
  is_gyrometer_calibration_ok : bool;
  is_accelerometer_calibration_ok : bool;
  is_magnetometer_calibration_ok : bool;
  is_local_position_ok : bool;
  is_global_position_ok : bool;
  is_home_position_ok : bool;
  is_armable : bool }.

Inductive Category :=
| CatPosition | CatAttitude | CatBattery | CatGps
| CatFlightMode | CatArmed | CatRc | CatHealth.

Inductive item :=
| IPosition (pos : Position)
| IAttitude (att : EulerAngle)
| IBattery (batt : Battery)
| IGps (gps : GpsInfo)
| IFlightMode (mode : string)
| IArmed (armed : bool)
| IRc (rc : RcStatus)
| IHealth (health : Health).

Definition item_cat (i : item) : Category :=
  match i with
  | IPosition _ => CatPosition
  | IAttitude _ => CatAttitude
  | IBattery _ => CatBattery
  | IGps _ => CatGps
  | IFlightMode _ => CatFlightMode
  | IArmed _ => CatArmed
  | IRc _ => CatRc
  | IHealth _ => CatHealth
  end.

#[global] Instance Category_eq_dec : EqDecision Category.
Proof. solve_decision. Defined.

(** ** Tasks and the shared state *)

Inductive Task :=
| Fetcher (c : Category)
| DisplayLoop
| LogToCsv.

#[global] Instance Task_eq_dec : EqDecision Task.
Proof. solve_decision. Defined.

Inductive Coroutine :=
| Supervisor
| TaskOf (t : Task).

(** Where a task is suspended. [Streaming]: in [async for], waiting for
    the next item of its subscription; [Sleeping u]: in
    [asyncio.sleep], until the clock reaches [u]. *)
Inductive task_state :=
| Absent
| Created
| Streaming
| Sleeping (until : Z).

(** Where the coroutine [run] is suspended. *)
Inductive sup_state :=
| SupConnecting
| SupAwaitConnected
| SupRunning
| SupBackoff (until : Z).

Abbreviation csv_row := (list value).

Record World := mkWorld {
  heap : heap_t;
  telemetry_data : nat;
  error_list : list string;
  filename : string;
  clock : Z;
  disk : option (list csv_row);
  sup : sup_state;
  tasks : Task -> task_state }.

Definition set_heap (h : heap_t) (w : World) : World :=
  mkWorld h (telemetry_data w) (error_list w) (filename w) (clock w) (disk w) (sup w) (tasks w).
Definition set_error_list (l : list string) (w : World) : World :=
  mkWorld (heap w) (telemetry_data w) l (filename w) (clock w) (disk w) (sup w) (tasks w).
Definition set_clock (t : Z) (w : World) : World :=
  mkWorld (heap w) (telemetry_data w) (error_list w) (filename w) t (disk w) (sup w) (tasks w).
Definition set_disk (f : option (list csv_row)) (w : World) : World :=
  mkWorld (heap w) (telemetry_data w) (error_list w) (filename w) (clock w) f (sup w) (tasks w).
Definition set_sup (s : sup_state) (w : World) : World :=
  mkWorld (heap w) (telemetry_data w) (error_list w) (filename w) (clock w) (disk w) s (tasks w).
Definition set_tasks (ts : Task -> task_state) (w : World) : World :=
  mkWorld (heap w) (telemetry_data w) (error_list w) (filename w) (clock w) (disk w) (sup w) ts.
Definition set_task (t : Task) (s : task_state) (w : World) : World :=
  set_tasks (fun t' => if decide (t' = t) then s else tasks w t') w.

(** The dictionary literal bound to [telemetry_data] at import; its
    ["health"] entry refers to the inner literal. *)
Definition health_literal : pydict :=
  [("Accelerometer calibration", VStr "N/A");
   ("Armable", VStr "N/A");
   ("Global position", VStr "N/A");
   ("Gyrometer calibration", VStr "N/A");
   ("Home position", VStr "N/A");
   ("Local position", VStr "N/A");
   ("Magnetometer calibration", VStr "N/A")].

Definition telemetry_literal (health_ref : nat) : pydict :=
  [("lat", VStr "N/A"); ("lon", VStr "N/A"); ("alt", VStr "N/A");
   ("abs_alt", VStr "N/A"); ("speed", VStr "N/A"); ("roll", VStr "N/A");
   ("pitch", VStr "N/A"); ("yaw", VStr "N/A"); ("voltage", VStr "N/A");
   ("battery", VStr "N/A"); ("gps_fix", VStr "N/A"); ("satellites", VStr "N/A");
   ("flight_mode", VStr "N/A"); ("armed", VStr "N/A"); ("rc_signal", VStr "N/A");
   ("health", VDict health_ref)].

Definition MAX_ERRORS_DISPLAYED : nat := 5.

(** [filename], from [log_start_time] taken once when the module is loaded. *)
Definition log_filename (t : Z) : string :=
  "flight_logs/telemetry_log_" +:+ strftime_stamp t +:+ ".csv".

(** ** Observable actions and scheduler events *)

Inductive action :=
| ActConnect
| ActPrint (line : string)
| ActClear
| ActCreateTask (t : Task)
| ActSubscribe (c : Category)
| ActSleep (who : Coroutine) (delay : Z)
| ActAddError (who : Coroutine) (entry : string)
| ActWriteHeader
| ActWriteRow (row : csv_row).

(** What the awaited I/O of a consumer tick does: it completes, or it
    raises an [Exception] whose [str] is [e] before anything is output. *)
Inductive io_result :=
| IoOk
| IoRaise (e : string).

(** One event resumes one suspended coroutine with the result of what
    it awaits, or is a change of the environment ([EvTime], [EvUnlink]).
    An exception raised into a coroutine is an instance of [Exception],
    the class every handler of the script names, given by its [str];
    an interrupt or the cancellation of a task is no event here. *)
Inductive event :=
| EvTime (dt : N)
| EvUnlink
| EvConnect (r : io_result)
| EvConnState (is_connected : bool)
| EvConnStateRaise (e : string)
| EvConnStateStop
| EvResume (who : Coroutine)
| EvItem (i : item)
| EvStreamRaise (c : Category) (e : string)
| EvStreamStop (c : Category)
| EvDisplay (r : io_result)
| EvLog (r : io_result).

(** ** [add_error] *)

Definition error_entry (error_msg : string) (w : World) : string :=
  let timestamp := strftime_HMS (clock w) in
  "[" +:+ timestamp +:+ "] " +:+ error_msg.

Definition push_error (entry : string) (errors : list string) : list string :=
  let errors := errors ++ [entry] in
  if (MAX_ERRORS_DISPLAYED <? length errors)%nat then drop 1 errors else errors.

Definition add_error (error_msg : string) (w : World) : World :=
  set_error_list (push_error (error_entry error_msg w) (error_list w)) w.

(** ** The stream fetchers *)

(** [telemetry_data[k] = v] *)
Definition store (k : string) (v : value) (w : World) : World :=
  set_heap (setitem (telemetry_data w) k v (heap w)) w.

Definition fetch_position_item (pos : Position) (w : World) : World :=
  let w := store "lat" (VStr (format_f 6 (latitude_deg pos))) w in
  let w := store "lon" (VStr (format_f 6 (longitude_deg pos))) w in
  let w := store "alt" (VStr (format_f 2 (relative_altitude_m pos))) w in
  store "abs_alt" (VStr (format_f 2 (absolute_altitude_m pos))) w.

Definition fetch_attitude_item (att : EulerAngle) (w : World) : World :=
  let w := store "roll" (VStr (format_f 2 (roll_deg att))) w in
  let w := store "pitch" (VStr (format_f 2 (pitch_deg att))) w in
  store "yaw" (VStr (format_f 2 (yaw_deg att))) w.

(** [x * 1] on a float is [x]. *)
Definition times_one (x : pyfloat) : pyfloat := x.

Definition fetch_battery_item (batt : Battery) (w : World) : World :=
  let w := store "voltage" (VStr (format_f 2 (voltage_v batt))) w in
  store "battery" (VStr (format_f 1 (times_one (remaining_percent batt)))) w.

Definition fetch_gps_item (gps : GpsInfo) (w : World) : World :=
  let w := store "gps_fix" (VStr (PyStr.replace "FIX_TYPE_" "" (fix_type gps))) w in
  store "satellites" (VStr (str_of_int (num_satellites gps))) w.

Definition fetch_flight_mode_item (mode : string) (w : World) : World :=
  store "flight_mode" (VStr (PyStr.replace "FLIGHT_MODE_" "" mode)) w.

Definition fetch_armed_status_item (armed : bool) (w : World) : World :=
  store "armed" (VStr (if armed then "Yes" else "No")) w.

Definition fetch_rc_signal_item (rc : RcStatus) (w : World) : World :=
  match signal_strength_percent rc with
  | Some x => store "rc_signal" (VStr (format_f 1 x)) w
  | None => store "rc_signal" (VStr "N/A") w
  end.

Definition ok_fail (b : bool) : value := VStr (if b then "OK" else "FAIL").

(** The dictionary display built from one health item. *)
Definition health_dict (health : Health) : pydict :=
  [("Accelerometer calibration", ok_fail (is_accelerometer_calibration_ok health));
   ("Gyrometer calibration", ok_fail (is_gyrometer_calibration_ok health));
   ("Magnetometer calibration", ok_fail (is_magnetometer_calibration_ok health));
   ("Global position", ok_fail (is_global_position_ok health));
   ("Home position", ok_fail (is_home_position_ok health));
   ("Local position", ok_fail (is_local_position_ok health));
   ("Armable", ok_fail (is_armable health))].

Definition fetch_health_item (health : Health) (w : World) : World :=
  let '(r, h) := alloc (health_dict health) (heap w) in
  store "health" (VDict r) (set_heap h w).

(** The body of the [async for] of the fetcher of [item_cat i]. *)
Definition apply_item (i : item) (w : World) : World :=
  match i with
  | IPosition pos => fetch_position_item pos w
  | IAttitude att => fetch_attitude_item att w
  | IBattery batt => fetch_battery_item batt w
  | IGps gps => fetch_gps_item gps w
  | IFlightMode mode => fetch_flight_mode_item mode w
  | IArmed armed => fetch_armed_status_item armed w
  | IRc rc => fetch_rc_signal_item rc w
  | IHealth health => fetch_health_item health w
  end.

(** The text in front of [str(e)] in a coroutine's [except] clause. *)
Definition error_tag (who : Coroutine) : string :=
  match who with
  | Supervisor => "Main connection error: "
  | TaskOf (Fetcher CatPosition) => "Position fetch error: "
  | TaskOf (Fetcher CatAttitude) => "Attitude fetch error: "
  | TaskOf (Fetcher CatBattery) => "Battery fetch error: "
  | TaskOf (Fetcher CatGps) => "GPS fetch error: "
  | TaskOf (Fetcher CatFlightMode) => "Flight mode fetch error: "
  | TaskOf (Fetcher CatArmed) => "Armed status fetch error: "
  | TaskOf (Fetcher CatRc) => "RC signal fetch error: "
  | TaskOf (Fetcher CatHealth) => "Health check fetch error: "
  | TaskOf DisplayLoop => "Display loop error: "
  | TaskOf LogToCsv => "Error writing to CSV: "
  end.

(** [except Exception as e: add_error(f"... error: {str(e)}");
    await asyncio.sleep(1)] of task [t]. *)
Definition task_except (t : Task) (e : string) (w : World) : World * list action :=
  let msg := error_tag (TaskOf t) +:+ e in
  let entry := error_entry msg w in
  let w := add_error msg w in
  (set_task t (Sleeping (clock w + 1)) w,
   [ActAddError (TaskOf t) entry; ActSleep (TaskOf t) 1]).

(** A task the scheduler can resume without an external result. *)
Definition runnable (s : task_state) (now : Z) : bool :=
  match s with
  | Created => true
  | Sleeping u => u <=? now
  | _ => false
  end.

(** ** The persistence consumer [log_to_csv] *)

Definition header : list string :=
  ["timestamp"; "lat"; "lon"; "alt"; "abs_alt"; "speed"; "roll"; "pitch";
   "yaw"; "voltage"; "battery"; "gps_fix"; "satellites"; "flight_mode";
   "armed"; "rc_signal";
   "health_accelerometer_calibration"; "health_armable";
   "health_global_position"; "health_gyrometer_calibration";
   "health_home_position"; "health_local_position";
   "health_magnetometer_calibration"].

(** [f'health_{key.lower().replace(" ", "_")}'] *)
Definition health_column (key : string) : string :=
  "health_" +:+ PyStr.replace " " "_" (PyStr.lower key).

(** The first half of one iteration: [flat_data] is a new dictionary
    object, filled in place; the result is its reference and the heap.
    [None]: [health_data.items()] raises, outside the [try] block,
    because ["health"] does not hold a dictionary (or the global is
    dangling); no state of the program is such ([store_ok] below). *)
Definition flatten (w : World) : option (nat * heap_t) :=
  td ← heap w !! telemetry_data w;
  '(flat, h) ← copy (telemetry_data w) (heap w);
  health_data ← match dict_get "health" td with
                | Some (VDict r) => h !! r
                | Some _ => None
                | None => Some []
                end;
  let h := alter (dict_del "health") flat h in
  let h := setitem flat "timestamp" (VStr (isoformat (clock w))) h in
  let h := foldl (fun h kv => setitem flat (health_column kv.1) kv.2 h) h health_data in
  items ← h !! flat;
  let h := foldl (fun h kv => if is_na kv.2 then setitem flat kv.1 (VInt 0) h else h)
                 h items in
  Some (flat, h).

(** [{k: flat_data.get(k, 0) if flat_data.get(k, 0) != "N/A" else 0 for k in header}] *)
Definition row_data (flat_data : pydict) : pydict :=
  map (fun k =>
         let v := default (VInt 0) (dict_get k flat_data) in
         (k, if negb (is_na v) then v else VInt 0)) header.

(** The cells [DictWriter.writerow] emits, in the order of [fieldnames]. *)
Definition writerow (fieldnames : list string) (row : pydict) : csv_row :=
  map (fun k => default (VStr "") (dict_get k row)) fieldnames.

(** The [try] block. [IoRaise]: the probe or the opening for append
    raises, nothing is written and the error is printed. *)
Definition write_csv (io : io_result) (flat_data : pydict) (w : World)
  : World * list action :=
  match io with
  | IoRaise e => (w, [ActPrint (error_tag (TaskOf LogToCsv) +:+ e)])
  | IoOk =>
      let file_exists := match disk w with Some _ => true | None => false end in
      let csvfile := default [] (disk w) in
      let row := writerow header (row_data flat_data) in
      if file_exists
      then (set_disk (Some (csvfile ++ [row])) w, [ActWriteRow row])
      else (set_disk (Some (csvfile ++ [map VStr header; row])) w,
            [ActWriteHeader; ActWriteRow row])
  end.

(** One iteration of [while True] in [log_to_csv], up to its [sleep(1)]. *)
Definition log_to_csv_tick (io : io_result) (w : World) : option (World * list action) :=
  '(flat, h) ← flatten w;
  flat_data ← h !! flat;
  let '(w, acts) := write_csv io flat_data (set_heap h w) in
  Some (set_task LogToCsv (Sleeping (clock w + 1)) w,
        acts ++ [ActSleep (TaskOf LogToCsv) 1]).

(** ** The display consumer [display_loop] *)

(** A value inside an f-string; the text of a nested dictionary is
    abridged (no scalar key of the Store ever holds one). *)
Definition show (v : value) : string :=
  match v with
  | VStr s => s
  | VInt z => str_of_int z
  | VDict _ => "{...}"
  end.

Definition display_fields : list (string * string * string) :=
  [("GPS Fix        : ", "gps_fix", "");
   ("Satellites     : ", "satellites", "");
   ("Latitude       : ", "lat", "");
   ("Longitude      : ", "lon", "");
   ("Rel Alt (m)    : ", "alt", "");
   ("Abs Alt (m)    : ", "abs_alt", "");
   ("Roll           : ", "roll", "°");
   ("Pitch          : ", "pitch", "°");
   ("Yaw            : ", "yaw", "°");
   ("Voltage        : ", "voltage", " V");
   ("Battery        : ", "battery", " %");
   ("Flight Mode    : ", "flight_mode", "");
   ("Armed          : ", "armed", "");
   ("RC Signal      : ", "rc_signal", "")].

Definition newline : string := String (Ascii.ascii_of_nat 10) "".

(** The scalar fields, printed one by one: the lines printed, and the
    [str] of the [KeyError] that ends the rendering at a missing key. *)
Fixpoint render_fields (td : pydict) (fs : list (string * string * string))
  : list string * option string :=
  match fs with
  | [] => ([], None)
  | f :: rest =>
      match dict_get f.1.2 td with
      | None => ([], Some ("'" +:+ f.1.2 +:+ "'"))
      | Some v =>
          let '(lines, exc) := render_fields td rest in
          ((f.1.1 +:+ show v +:+ f.2) :: lines, exc)
      end
  end.

(** The lines one iteration prints, and the [str] of the exception that
    ends it early, if any. [None]: the global is dangling, which no
    state of the program has. *)
Definition display_lines (w : World) : option (list string * option string) :=
  td ← heap w !! telemetry_data w;
  let '(fields, exc) := render_fields td display_fields in
  let top := "========= PX4 MAVSDK Telemetry =========" :: fields in
  match exc with
  | Some e => Some (top, Some e)
  | None =>
      let top := top ++ [newline +:+ "---------- Pre-Arm Health Check ---------"] in
      match dict_get "health" td with
      | None => Some (top, Some "'health'")
      | Some (VStr _) => Some (top, Some "'str' object has no attribute 'items'")
      | Some (VInt _) => Some (top, Some "'int' object has no attribute 'items'")
      | Some (VDict r) =>
          health ← heap w !! r;
          Some (top ++
                map (fun kv : string * value =>
                       PyStr.ljust 30 kv.1 +:+ ": " +:+ show kv.2) health ++
                [newline +:+ "=========== Recent Errors ==========="] ++
                (match error_list w with
                 | [] => ["No errors recorded"]
                 | _ => PyStr.last_n MAX_ERRORS_DISPLAYED (error_list w)
                 end) ++
                ["=====================================" +:+ newline],
                None)
      end
  end.

Definition with_actions (pre : list action) (r : World * list action)
  : World * list action :=
  (r.1, pre ++ r.2).

(** One iteration of [while True] in [display_loop]. An exception of
    the rendering, whether the terminal raises at the first output
    ([IoRaise]) or a subscript does later, is handled by the [except]
    clause. *)
Definition display_loop_tick (io : io_result) (w : World) : option (World * list action) :=
  match io with
  | IoRaise e => Some (task_except DisplayLoop e w)
  | IoOk =>
      match display_lines w with
      | None => None
      | Some (lines, None) =>
          Some (set_task DisplayLoop (Sleeping (clock w + 1)) w,
                ActClear :: map ActPrint lines ++ [ActSleep (TaskOf DisplayLoop) 1])
      | Some (lines, Some e) =>
          Some (with_actions (ActClear :: map ActPrint lines)
                             (task_except DisplayLoop e w))
      end
  end.

(** ** The supervisor [run] *)

Definition all_tasks : list Task :=
  [Fetcher CatPosition; Fetcher CatAttitude; Fetcher CatBattery; Fetcher CatGps;
   Fetcher CatFlightMode; Fetcher CatArmed; Fetcher CatRc; Fetcher CatHealth;
   DisplayLoop; LogToCsv].

(** Entering [run()]: [System()] and the call of [drone.connect]. *)
Definition enter_run (w : World) : World * list action :=
  (set_sup SupConnecting w, [ActConnect]).

(** The ten [asyncio.create_task] calls and the [await] of
    [asyncio.gather] over them. *)
Definition launch (w : World) : World * list action :=
  (set_sup SupRunning (set_tasks (fun _ => Created) w), map ActCreateTask all_tasks).

(** [except Exception as e: add_error(...); await asyncio.sleep(5)] *)
Definition run_except (e : string) (w : World) : World * list action :=
  let msg := error_tag Supervisor +:+ e in
  let entry := error_entry msg w in
  let w := add_error msg w in
  (set_sup (SupBackoff (clock w + 5)) w,
   [ActAddError Supervisor entry; ActSleep Supervisor 5]).

(** ** The scheduler *)

(** [step ev w] is [None] when no coroutine of [w] is waiting for [ev]. *)
Definition step (ev : event) (w : World) : option (World * list action) :=
  match ev with
  | EvTime dt => Some (set_clock (clock w + Z.of_N dt) w, [])
  | EvUnlink => Some (set_disk None w, [])
  | EvConnect r =>
      match sup w, r with
      | SupConnecting, IoOk =>
          Some (set_sup SupAwaitConnected w, [ActPrint "Connecting to drone..."])
      | SupConnecting, IoRaise e => Some (run_except e w)
      | _, _ => None
      end
  | EvConnState is_connected =>
      match sup w with
      | SupAwaitConnected =>
          if is_connected
          then Some (with_actions [ActPrint "✅ Drone connected!"] (launch w))
          else Some (w, [])
      | _ => None
      end
  | EvConnStateRaise e =>
      match sup w with
      | SupAwaitConnected => Some (run_except e w)
      | _ => None
      end
  | EvConnStateStop =>
      match sup w with
      | SupAwaitConnected => Some (launch w)
      | _ => None
      end
  | EvResume Supervisor =>
      match sup w with
      | SupBackoff u => if u <=? clock w then Some (enter_run w) else None
      | _ => None
      end
  | EvResume (TaskOf (Fetcher c)) =>
      if runnable (tasks w (Fetcher c)) (clock w)
      then Some (set_task (Fetcher c) Streaming w, [ActSubscribe c])
      else None
  | EvResume (TaskOf _) => None
  | EvItem i =>
      match tasks w (Fetcher (item_cat i)) with
      | Streaming => Some (apply_item i w, [])
      | _ => None
      end
  | EvStreamRaise c e =>
      match tasks w (Fetcher c) with
      | Streaming => Some (task_except (Fetcher c) e w)
      | _ => None
      end
  | EvStreamStop c =>
      match tasks w (Fetcher c) with
      | Streaming => Some (w, [ActSubscribe c])
      | _ => None
      end
  | EvDisplay r =>
      if runnable (tasks w DisplayLoop) (clock w)
      then display_loop_tick r w
      else None
  | EvLog r =>
      if runnable (tasks w LogToCsv) (clock w)
      then log_to_csv_tick r w
      else None
  end.

Fixpoint run (evs : list event) (w : World) : option (World * list action) :=
  match evs with
  | [] => Some (w, [])
  | ev :: rest =>
      '(w1, a1) ← step ev w;
      '(w2, a2) ← run rest w1;
      Some (w2, a1 ++ a2)
  end.

(** Loading the module at wall-clock time [t0] with [file] the content
    of the log file of that name, if it exists already. *)
Definition load_module (t0 : Z) (file : option (list csv_row)) : World :=
  mkWorld [telemetry_literal 1; health_literal] 0%nat [] (log_filename t0) t0 file
          SupConnecting (fun _ => Absent).

(** [asyncio.run(run())] *)
Definition main (t0 : Z) (file : option (list csv_row)) : World * list action :=
  enter_run (load_module t0 file).

(** ** Views of the state used in the statements *)

#[global] Instance Coroutine_eq_dec : EqDecision Coroutine.
Proof. solve_decision. Defined.

#[global] Instance value_eq_dec : EqDecision value.
Proof. solve_decision. Defined.

(** What a reader finds under a key: a scalar, or the content of the
    nested dictionary the entry refers to. *)
Inductive field_value :=
| Scalar (v : value)
| Checklist (d : pydict).

Definition view (h : heap_t) (r : nat) (k : string) : option field_value :=
  d ← h !! r;
  v ← dict_get k d;
  match v with
  | VDict r' => Checklist <$> h !! r'
  | _ => Some (Scalar v)
  end.

(** The Store as a reader of [telemetry_data] sees it. *)
Definition field (w : World) (k : string) : option field_value :=
  view (heap w) (telemetry_data w) k.

(** The health checklist of the Store. *)
Definition checklist (w : World) : option pydict :=
  match field w "health" with
  | Some (Checklist d) => Some d
  | _ => None
  end.

Definition health_names : list string := dict_keys health_literal.

(** A dictionary with exactly the seven named checks. *)
Definition seven_checks (d : pydict) : Prop :=
  length d = 7%nat /\ forall k, k ∈ dict_keys d <-> k ∈ health_names.

(** The shape of the Store every state of the program has: the global
    refers to a dictionary whose ["health"] entry refers to another
    dictionary, and every other entry is a [str]. *)
Definition store_ok (w : World) : Prop :=
  exists td r hd,
    heap w !! telemetry_data w = Some td /\
    dict_get "health" td = Some (VDict r) /\
    r <> telemetry_data w /\
    heap w !! r = Some hd /\
    (forall k v, dict_get k td = Some v -> k <> "health" -> exists s, v = VStr s).

(** The serialization rule for a cell. *)
Definition na_to_zero (v : value) : value := if is_na v then VInt 0 else v.

Definition cell_zero (kv : string * value) : string * value := (kv.1, na_to_zero kv.2).

(** The content [flat_data] has before the marker is replaced, from
    the timestamp [ts], the content [td] of [telemetry_data] and [hd] of
    its checklist. *)
Definition merged_dict (ts : string) (td hd : pydict) : pydict :=
  let d := dict_del "health" td in
  let d := dict_set "timestamp" (VStr ts) d in
  foldl (fun d kv => dict_set (health_column kv.1) kv.2 d) d hd.

(** The content [flat_data] has when the [try] block is entered. *)
Definition flat_dict (ts : string) (td hd : pydict) : pydict :=
  let d := merged_dict ts td hd in
  foldl (fun d kv => if is_na kv.2 then dict_set kv.1 (VInt 0) d else d) d d.

(** The cell [row_data] holds for column [k]. *)
Definition serialized_cell (flat_data : pydict) (k : string) : value :=
  let v := default (VInt 0) (dict_get k flat_data) in
  if negb (is_na v) then v else VInt 0.

(** The row a tick emits for these contents. *)
Definition csv_row_of (ts : string) (td hd : pydict) : csv_row :=
  writerow header (row_data (flat_dict ts td hd)).

(** The row [writeheader] writes, and how many of them a file holds. *)
Definition header_row : csv_row := map VStr header.

Definition header_rows (file : list csv_row) : nat :=
  length (filter (fun row => row = header_row) file).

Definition at_most_one_header (file : option (list csv_row)) : Prop :=
  match file with
  | Some rows => (header_rows rows <= 1)%nat
  | None => True
  end.

(** The row written by the actions of a tick, if it wrote one. *)
Definition emitted_row (acts : list action) : option csv_row :=
  head (omap (fun a => match a with ActWriteRow row => Some row | _ => None end) acts).

Definition wrote_header (acts : list action) : bool :=
  existsb (fun a => match a with ActWriteHeader => true | _ => false end) acts.

(** The state and the actions of a tick of [log_to_csv] whose
    [flat_data] has the content [fd]. *)
Definition tick_result (io : io_result) (fd : pydict) (w : World) : World * list action :=
  let '(w1, acts) := write_csv io fd (set_heap (heap w ++ [fd]) w) in
  (set_task LogToCsv (Sleeping (clock w1 + 1)) w1,
   acts ++ [ActSleep (TaskOf LogToCsv) 1]).

(** The text the RC fetcher stores for an item. *)
Definition rc_text (rc : RcStatus) : string :=
  match signal_strength_percent rc with
  | Some x => format_f 1 x
  | None => "N/A"
  end.

(** A Store every fetcher has written into: one item of each category. *)
Definition populate (pos : Position) (att : EulerAngle) (batt : Battery) (gps : GpsInfo)
    (mode : string) (armed : bool) (rc : RcStatus) (health : Health) (w : World) : World :=
  let w := fetch_position_item pos w in
  let w := fetch_attitude_item att w in
  let w := fetch_battery_item batt w in
  let w := fetch_gps_item gps w in
  let w := fetch_flight_mode_item mode w in
  let w := fetch_armed_status_item armed w in
  let w := fetch_rc_signal_item rc w in
  fetch_health_item health w.

(** The field updates one delivered item stands for, each field with
    its new value, as the specification words them; [apply_item] is
    compared with this list in [apply_item_field]. *)
Definition spec_item_updates (i : item) : list (string * field_value) :=
  match i with
  | IPosition pos =>
      [("lat", Scalar (VStr (format_f 6 (latitude_deg pos))));
       ("lon", Scalar (VStr (format_f 6 (longitude_deg pos))));
       ("alt", Scalar (VStr (format_f 2 (relative_altitude_m pos))));
       ("abs_alt", Scalar (VStr (format_f 2 (absolute_altitude_m pos))))]
  | IAttitude att =>
      [("roll", Scalar (VStr (format_f 2 (roll_deg att))));
       ("pitch", Scalar (VStr (format_f 2 (pitch_deg att))));
       ("yaw", Scalar (VStr (format_f 2 (yaw_deg att))))]
  | IBattery batt =>
      [("voltage", Scalar (VStr (format_f 2 (voltage_v batt))));
       ("battery", Scalar (VStr (format_f 1 (remaining_percent batt))))]
  | IGps gps =>
      [("gps_fix", Scalar (VStr (PyStr.replace "FIX_TYPE_" "" (fix_type gps))));
       ("satellites", Scalar (VStr (str_of_int (num_satellites gps))))]
  | IFlightMode mode =>
      [("flight_mode", Scalar (VStr (PyStr.replace "FLIGHT_MODE_" "" mode)))]
  | IArmed armed =>
      [("armed", Scalar (VStr (if armed then "Yes" else "No")))]
  | IRc rc =>
      [("rc_signal", Scalar (VStr (match signal_strength_percent rc with
                                   | Some x => format_f 1 x
                                   | None => "N/A"
                                   end)))]
  | IHealth health => [("health", Checklist (health_dict health))]
  end.

(** The fields a category writes. *)
Definition category_fields (c : Category) : list string :=
  match c with
  | CatPosition => ["lat"; "lon"; "alt"; "abs_alt"]
  | CatAttitude => ["roll"; "pitch"; "yaw"]
  | CatBattery => ["voltage"; "battery"]
  | CatGps => ["gps_fix"; "satellites"]
  | CatFlightMode => ["flight_mode"]
  | CatArmed => ["armed"]
  | CatRc => ["rc_signal"]
  | CatHealth => ["health"]
  end.

Fixpoint assoc {A} (k : string) (l : list (string * A)) : option A :=
  match l with
  | [] => None
  | (k', a) :: rest => if String.eqb k' k then Some a else assoc k rest
  end.

(** The update of field [k] an event completes, if any. *)
Definition event_update (k : string) (ev : event) : option field_value :=
  match ev with
  | EvItem i => assoc k (spec_item_updates i)
  | _ => None
  end.

(** The most recent update of field [k] completed in [evs]. *)
Definition latest_update (k : string) (evs : list event) : option field_value :=
  last (omap (event_update k) evs).

(** ** Counting what a run did *)

Definition is_subscribe (c : Category) (a : action) : bool :=
  match a with
  | ActSubscribe c' => bool_decide (c' = c)
  | _ => false
  end.

Definition subscriptions (c : Category) (acts : list action) : nat :=
  length (List.filter (is_subscribe c) acts).

Definition errors_of (who : Coroutine) (acts : list action) : list string :=
  omap (fun a => match a with
                 | ActAddError who' entry => if decide (who' = who) then Some entry else None
                 | _ => None
                 end) acts.

Definition sleeps_of (who : Coroutine) (acts : list action) : list Z :=
  omap (fun a => match a with
                 | ActSleep who' d => if decide (who' = who) then Some d else None
                 | _ => None
                 end) acts.



Definition failures_of (c : Category) (evs : list event) : list string :=
  omap (fun ev => match ev with
                  | EvStreamRaise c' e => if decide (c' = c) then Some e else None
                  | _ => None
                  end) evs.

Definition is_stop (c : Category) (ev : event) : bool :=
  match ev with
  | EvStreamStop c' => bool_decide (c' = c)
  | _ => false
  end.

Definition stops_of (c : Category) (evs : list event) : nat :=
  length (List.filter (is_stop c) evs).

(** [1] for a fetcher that holds an open subscription. *)
Definition streaming (s : task_state) : nat :=
  match s with
  | Streaming => 1
  | _ => 0
  end.

(** An entry of the error log that carries the tag of [who]. *)
Definition tagged (who : Coroutine) (entry : string) : Prop :=
  exists timestamp e, entry = "[" +:+ timestamp +:+ "] " +:+ error_tag who +:+ e.

(** [n] consecutive failures of the subscription of [c]: each raises,
    the fetcher sleeps while at least one time unit passes, and is
    resumed. *)
Definition failure_round (c : Category) (f : string * N) : list event :=
  [EvStreamRaise c f.1; EvTime (1 + f.2); EvResume (TaskOf (Fetcher c))].

Definition failure_script (c : Category) (fails : list (string * N)) : list event :=
  EvResume (TaskOf (Fetcher c)) :: concat (failure_round c <$> fails).

(** A failed attempt of the connection phase: [drone.connect] raises,
    or it returns and the connection-state subscription raises after
    [n] states that are not connected. *)
Inductive failed_attempt :=
| ConnectRaises (e : string)
| StateRaises (n : nat) (e : string).

Definition attempt_error (a : failed_attempt) : string :=
  match a with
  | ConnectRaises e => e
  | StateRaises _ e => e
  end.

Definition attempt_events (a : failed_attempt) : list event :=
  match a with
  | ConnectRaises e => [EvConnect (IoRaise e)]
  | StateRaises n e => EvConnect IoOk :: replicate n (EvConnState false) ++ [EvConnStateRaise e]
  end.

(** A failed attempt, the fixed delay passing, and the retry. *)
Definition retry_round (a : failed_attempt * N) : list event :=
  attempt_events a.1 ++ [EvTime (5 + a.2); EvResume Supervisor].

Definition connect_script (fails : list (failed_attempt * N)) : list event :=
  concat (retry_round <$> fails) ++ [EvConnect IoOk; EvConnState true].

(** What a failed attempt has printed before it raises. *)
Definition attempt_prints (a : failed_attempt) : list action :=
  match a with
  | ConnectRaises _ => []
  | StateRaises _ _ => [ActPrint "Connecting to drone..."]
  end.


(** The entry [run]'s handler records for exception text [e] in [w]. *)
Definition main_error_entry (e : string) (w : World) : string :=
  error_entry (error_tag Supervisor +:+ e) w.

(** A sequence of [add_error] calls, each at its wall-clock time. *)
Definition record_calls (calls : list (Z * string)) (w : World) : World :=
  foldl (fun w c => add_error c.2 (set_clock c.1 w)) w calls.

Definition entry_of (c : Z * string) : string :=
  "[" +:+ strftime_HMS c.1 +:+ "] " +:+ c.2.

(** The statement of a session context created fresh at time [t]: what
    a newly loaded module has. *)
Definition fresh_context (t : Z) (w : World) : Prop :=
  field w = field (load_module t None) /\
  error_list w = [] /\
  filename w = log_filename t.

(** ** Sample inputs *)

Definition sample_start : Z := 1762183845.

Definition sample_position : Position :=
  {| latitude_deg := FFinite false 6649508554817195 (-47);
     longitude_deg := FFinite true 4810476594829382 (-49);
     absolute_altitude_m := FFinite false 8589384836186112 (-44);
     relative_altitude_m := FFinite false 7093169413108531 (-49) |}.

Definition sample_attitude : EulerAngle :=
  {| roll_deg := FFinite true 3 (-3); pitch_deg := FFinite false 1 (-1);
     yaw_deg := FFinite false 90 0 |}.

Definition sample_battery : Battery :=
  {| voltage_v := FFinite false 63 (-2); remaining_percent := FFinite false 87 0 |}.

Definition sample_gps : GpsInfo := {| num_satellites := 11; fix_type := "FIX_3D" |}.

Definition sample_rc : RcStatus := {| signal_strength_percent := Some (FFinite false 99 0) |}.

Definition sample_health : Health :=
  {| is_gyrometer_calibration_ok := true;
     is_accelerometer_calibration_ok := true;
     is_magnetometer_calibration_ok := true;
     is_local_position_ok := true;
     is_global_position_ok := false;
     is_home_position_ok := true;
     is_armable := true |}.

Definition sample_health_2 : Health :=
  {| is_gyrometer_calibration_ok := false;
     is_accelerometer_calibration_ok := true;
     is_magnetometer_calibration_ok := false;
     is_local_position_ok := false;
     is_global_position_ok := true;
     is_home_position_ok := false;
     is_armable := false |}.

(** The state when the ten tasks have just been created. *)
Definition sample_launched : World :=
  (launch (load_module sample_start None)).1.

Definition sample_calls : list (Z * string) :=
  [(10, "e1"); (11, "e2"); (12, "e3"); (13, "e4"); (14, "e5"); (15, "e6"); (16, "e7")].

Definition sample_failed_attempts : list (failed_attempt * N) :=
  [(ConnectRaises "no device", 0%N); (StateRaises 2 "link lost", 1%N);
   (ConnectRaises "busy", 0%N)].

(** One failed connection, the delay, and [run()] entered again. *)
Definition sample_restart : list event :=
  [EvConnect (IoRaise "no device"); EvTime 5; EvResume Supervisor].

Definition sample_updates : list event :=
  [EvResume (TaskOf (Fetcher CatPosition));
   EvResume (TaskOf (Fetcher CatGps));
   EvItem (IPosition sample_position);
   EvLog IoOk;
   EvItem (IGps sample_gps);
   EvTime 1;
   EvItem (IPosition {| latitude_deg := FFinite false 1 0; longitude_deg := FFinite false 2 0;
                        absolute_altitude_m := FFinite false 3 0;
                        relative_altitude_m := FFinite false 4 0 |});
   EvDisplay IoOk].

(** A log file left by an earlier run: the header and one data row. *)
Definition sample_file : list csv_row :=
  [header_row; VStr "2025-11-03T15:00:00" :: replicate 22 (VInt 0)].

(** The tasks just created, in a process that found that file. *)
Definition sample_session : World :=
  (launch (load_module sample_start (Some sample_file))).1.

Definition sample_ticks : list event :=
  [EvLog IoOk; EvTime 1; EvLog (IoRaise "disk full"); EvTime 1; EvLog IoOk].

Definition sample_ticks_unlink : list event :=
  [EvLog IoOk; EvTime 1; EvUnlink; EvLog IoOk].

(** ** The row and the screen a state stands for *)

(** The columns of [header] that hold a scalar field of the Store. *)
Definition scalar_columns : list string :=
  ["lat"; "lon"; "alt"; "abs_alt"; "speed"; "roll"; "pitch"; "yaw"; "voltage";
   "battery"; "gps_fix"; "satellites"; "flight_mode"; "armed"; "rc_signal"].

(** The keys of [telemetry_data], in the order of the literal. *)
Definition store_keys (w : World) : option (list string) :=
  dict_keys <$> heap w !! telemetry_data w.

(** The layout every state of the program has, finer than [store_ok]:
    the keys of the literal in its order, text under every scalar key,
    the marker under ["speed"], and a checklist that is the literal's
    or the one a health item has built. *)
Definition store_schema (w : World) : Prop :=
  exists td r hd,
    heap w !! telemetry_data w = Some td /\
    dict_keys td = scalar_columns ++ ["health"] /\
    dict_get "health" td = Some (VDict r) /\
    r <> telemetry_data w /\
    heap w !! r = Some hd /\
    (hd = health_literal \/ exists health, hd = health_dict health) /\
    dict_get "speed" td = Some (VStr "N/A") /\
    (forall k v, dict_get k td = Some v -> k <> "health" -> exists s, v = VStr s).

(** The cell of the row for a scalar column, read off the Store. *)
Definition field_cell (w : World) (k : string) : value :=
  match field w k with
  | Some (Scalar v) => na_to_zero v
  | _ => VInt 0
  end.

(** The cell of the row for the check [name], whatever its place in
    the checklist. *)
Definition check_cell (w : World) (name : string) : value :=
  match checklist w with
  | Some d => match dict_get name d with
              | Some v => na_to_zero v
              | None => VInt 0
              end
  | None => VInt 0
  end.

(** The row that stands for the Store at the time of the state. *)
Definition store_row (w : World) : csv_row :=
  VStr (isoformat (clock w)) ::
  map (field_cell w) scalar_columns ++ map (check_cell w) health_names.


(** The text the display shows for a scalar field. *)
Definition field_text (w : World) (k : string) : string :=
  match field w k with
  | Some (Scalar v) => show v
  | _ => ""
  end.

(** The screen that stands for a state: title, the fourteen fields,
    the checklist in the order of its dictionary, and the error log. *)
Definition screen (w : World) : list string :=
  "========= PX4 MAVSDK Telemetry =========" ::
  map (fun f : string * string * string => f.1.1 +:+ field_text w f.1.2 +:+ f.2)
      display_fields ++
  [newline +:+ "---------- Pre-Arm Health Check ---------"] ++
  map (fun kv : string * value => PyStr.ljust 30 kv.1 +:+ ": " +:+ show kv.2)
      (default [] (checklist w)) ++
  [newline +:+ "=========== Recent Errors ==========="] ++
  (match error_list w with
   | [] => ["No errors recorded"]
   | errors => errors
   end) ++
  ["=====================================" +:+ newline].

Definition printed (acts : list action) : list string :=
  omap (fun a => match a with ActPrint line => Some line | _ => None end) acts.

(** ** Counting the ticks of a run *)





(** The exceptions the terminal raises into [display_loop]. *)
Definition display_failures (evs : list event) : list string :=
  omap (fun ev => match ev with
                  | EvDisplay (IoRaise e) => Some e
                  | _ => None
                  end) evs.


(** Waiting for the connected state: states that are not connected,
    and time passing. *)
Definition is_waiting (ev : event) : bool :=
  match ev with
  | EvConnState false => true
  | EvTime _ => true
  | _ => false
  end.

Definition elapsed (evs : list event) : Z :=
  foldr (fun ev t => match ev with EvTime dt => Z.of_N dt + t | _ => t end) 0 evs.

(** The entries of the error log some handler has recorded. *)
Definition recorded_entry (entry : string) : Prop :=
  exists who, who <> TaskOf LogToCsv /\ tagged who entry.

(** ** Further sample inputs *)

(** A session from the start of the script: the connection, then the
    events of [sample_updates]. *)
Definition sample_flight : list event :=
  [EvConnect IoOk; EvConnState true] ++ sample_updates.

Definition is_display_tick (ev : event) : bool :=
  match ev with
  | EvDisplay _ => true
  | _ => false
  end.

Definition display_ticks (evs : list event) : nat :=
  length (List.filter is_display_tick evs).


(** A fetcher that holds an open subscription of the RC status. *)
Definition sample_streaming : World :=
  set_task (Fetcher CatRc) Streaming sample_launched.

(** The entries the handlers of a run have passed to [add_error]. *)
Definition recorded (acts : list action) : list string :=
  omap (fun a => match a with ActAddError _ entry => Some entry | _ => None end) acts.

(** A long wait for the connected state. *)
Definition sample_wait : list event :=
  [EvConnState false; EvTime 30; EvConnState false; EvTime 600; EvConnState false].

(** * Checks of the embedding on concrete inputs *)

Example replace_ex1 : PyStr.replace "FIX_TYPE_" "" "FIX_TYPE_FIX_3D" = "FIX_3D".
Proof. reflexivity. Qed.

Example replace_ex2 : health_column "Home position" = "health_home_position".
Proof. reflexivity. Qed.

Example format_ex1 : format_f 2 (FFinite false 5 (-2)) = "1.25".
Proof. reflexivity. Qed.

Example format_ex2 : format_f 1 (FFinite true 5 (-2)) = "-1.2".
Proof. reflexivity. Qed.

Example format_ex3 : format_f 2 (FFinite false 3 (-3)) = "0.38".
Proof. reflexivity. Qed.

Example format_ex4 : format_f 6 (latitude_deg sample_position) = "47.247600".
Proof. vm_compute. reflexivity. Qed.

Example format_ex6 : format_f 6 (longitude_deg sample_position) = "-8.545123".
Proof. vm_compute. reflexivity. Qed.

Example format_ex7 : format_f 1 (absolute_altitude_m sample_position) = "488.2".
Proof. vm_compute. reflexivity. Qed.

Example format_ex8 : format_f 2 (relative_altitude_m sample_position) = "12.60".
Proof. vm_compute. reflexivity. Qed.

Example format_ex5 : format_f 2 (FFinite true 1 (-10)) = "-0.00".
Proof. reflexivity. Qed.

Example isoformat_ex1 : isoformat sample_start = "2025-11-03T15:30:45".
Proof. reflexivity. Qed.

Example strftime_ex1 : strftime_stamp 951782400 = "20000229_000000".
Proof. reflexivity. Qed.

Example display_ex1 :
  display_lines (fetch_health_item sample_health (load_module sample_start None)) =
  Some (["========= PX4 MAVSDK Telemetry =========";
        "GPS Fix        : N/A"; "Satellites     : N/A"; "Latitude       : N/A";
        "Longitude      : N/A"; "Rel Alt (m)    : N/A"; "Abs Alt (m)    : N/A";
        "Roll           : N/A°"; "Pitch          : N/A°"; "Yaw            : N/A°";
        "Voltage        : N/A V"; "Battery        : N/A %"; "Flight Mode    : N/A";
        "Armed          : N/A"; "RC Signal      : N/A";
        newline +:+ "---------- Pre-Arm Health Check ---------";
        "Accelerometer calibration     : OK"; "Gyrometer calibration         : OK";
        "Magnetometer calibration      : OK"; "Global position               : FAIL";
        "Home position                 : OK"; "Local position                : OK";
        "Armable                       : OK";
        newline +:+ "=========== Recent Errors ===========";
        "No errors recorded";
        "=====================================" +:+ newline], None).
Proof. vm_compute. reflexivity. Qed.

Example populated_row_ex1 :
  (log_to_csv_tick IoOk
     (populate sample_position sample_attitude sample_battery sample_gps
               "FLIGHT_MODE_HOLD" true sample_rc sample_health
               (load_module sample_start None))
   ≫= fun r => emitted_row r.2) =
  Some [VStr "2025-11-03T15:30:45"; VStr "47.247600"; VStr "-8.545123"; VStr "12.60";
        VStr "488.25"; VInt 0; VStr "-0.38"; VStr "0.50"; VStr "90.00"; VStr "15.75";
        VStr "87.0"; VStr "FIX_3D"; VStr "11"; VStr "HOLD"; VStr "Yes"; VStr "99.0";
        VStr "OK"; VStr "OK"; VStr "FAIL"; VStr "OK"; VStr "OK"; VStr "OK"; VStr "OK"].
Proof. vm_compute. reflexivity. Qed.

Example unlink_ex1 :
  (run sample_ticks_unlink sample_session ≫= fun r => disk r.1) =
  Some [header_row; VStr "2025-11-03T15:30:46" :: replicate 22 (VInt 0)].
Proof. vm_compute. reflexivity. Qed.

(** * Properties *)

(** ** The bounded error log *)

Section ErrorLog.

Lemma last_n_short {A} (n : nat) (l : list A) :
  (length l <= n)%nat -> PyStr.last_n n l = l.
Proof.
  intros Hl. unfold PyStr.last_n.
  replace (length l - n)%nat with 0%nat by lia. reflexivity.
Qed.

Lemma last_n_length {A} (n : nat) (l : list A) :
  (length (PyStr.last_n n l) <= n)%nat.
Proof. unfold PyStr.last_n. rewrite length_drop. lia. Qed.

Lemma last_n_app {A} (n : nat) (older newest : list A) :
  length newest = n -> PyStr.last_n n (older ++ newest) = newest.
Proof.
  intros Hn. unfold PyStr.last_n. rewrite length_app, Hn.
  replace (length older + n - n)%nat with (length older) by lia.
  apply drop_app_length.
Qed.

Lemma last_n_absorb {A} (n : nat) (a b : list A) :
  PyStr.last_n n (PyStr.last_n n a ++ b) = PyStr.last_n n (a ++ b).
Proof.
  destruct (decide (length a <= n)%nat) as [Hle|Hgt].
  - rewrite (last_n_short n a) by done. reflexivity.
  - unfold PyStr.last_n. rewrite !length_app, length_drop.
    replace (length a - (length a - n) + length b - n)%nat with (length b) by lia.
    replace (length a + length b - n)%nat with ((length a - n) + length b)%nat by lia.
    rewrite <- drop_drop. rewrite (drop_app_le a) by lia. reflexivity.
Qed.

Lemma push_error_last_n (entry : string) (errors : list string) :
  (length errors <= MAX_ERRORS_DISPLAYED)%nat ->
  push_error entry errors = PyStr.last_n MAX_ERRORS_DISPLAYED (errors ++ [entry]).
Proof.
  intros Hl. unfold push_error, PyStr.last_n, MAX_ERRORS_DISPLAYED in *.
  rewrite length_app. simpl length.
  destruct (Nat.ltb_spec 5 (length errors + 1)) as [Hlt|Hge].
  - replace (length errors + 1 - 5)%nat with 1%nat by lia. reflexivity.
  - replace (length errors + 1 - 5)%nat with 0%nat by lia. reflexivity.
Qed.

Lemma push_error_length (entry : string) (errors : list string) :
  (length errors <= MAX_ERRORS_DISPLAYED)%nat ->
  (length (push_error entry errors) <= MAX_ERRORS_DISPLAYED)%nat.
Proof. intros Hl. rewrite push_error_last_n by done. apply last_n_length. Qed.

Lemma record_calls_error_list (calls : list (Z * string)) (w : World) :
  error_list (record_calls calls w) =
  foldl (fun l c => push_error (entry_of c) l) (error_list w) calls.
Proof.
  revert w. induction calls as [|c calls IH]; intros w; [reflexivity|].
  unfold record_calls in *. simpl foldl. rewrite IH. reflexivity.
Qed.

Lemma fold_push_error (entries : list string) (errors : list string) :
  (length errors <= MAX_ERRORS_DISPLAYED)%nat ->
  foldl (fun l e => push_error e l) errors entries =
  PyStr.last_n MAX_ERRORS_DISPLAYED (errors ++ entries).
Proof.
  revert errors. induction entries as [|e entries IH]; intros errors Hl.
  - simpl. rewrite app_nil_r, last_n_short; done.
  - simpl foldl. rewrite IH by (by apply push_error_length).
    rewrite push_error_last_n by done. rewrite last_n_absorb.
    by rewrite <- app_assoc.
Qed.

End ErrorLog.

(** ** Strings *)

Section Strings.





Lemma string_app_assoc (a b c : string) : (a +:+ b) +:+ c = a +:+ b +:+ c.
Proof.
  induction a as [|x a IH]; [reflexivity|].
  change (String x ((a +:+ b) +:+ c) = String x (a +:+ b +:+ c)). by rewrite IH.
Qed.

End Strings.

(** ** Dictionaries and the heap *)

Section Dicts.

Lemma dict_get_set (k k' : string) (v : value) (d : pydict) :
  dict_get k' (dict_set k v d) = if String.eqb k k' then Some v else dict_get k' d.
Proof.
  induction d as [|[k0 v0] d IH]; simpl.
  - reflexivity.
  - destruct (String.eqb_spec k0 k) as [->|Hne]; simpl.
    + destruct (String.eqb_spec k k'); reflexivity.
    + rewrite IH. destruct (String.eqb_spec k0 k') as [->|Hne'].
      * destruct (String.eqb_spec k k'); [congruence | reflexivity].
      * reflexivity.
Qed.

Lemma dict_get_set_same (k : string) (v : value) (d : pydict) :
  dict_get k (dict_set k v d) = Some v.
Proof. by rewrite dict_get_set, String.eqb_refl. Qed.

Lemma dict_get_elem (k : string) (v : value) (d : pydict) :
  dict_get k d = Some v -> (k, v) ∈ d.
Proof.
  induction d as [|[k0 v0] d IH]; simpl; [done|].
  destruct (String.eqb_spec k0 k) as [->|Hne].
  - intros [= ->]. left.
  - intros Hk. right. by apply IH.
Qed.

Lemma dict_set_keys_present (k : string) (v v0 : value) (pre suf : pydict) :
  k ∉ dict_keys pre ->
  dict_set k v (pre ++ (k, v0) :: suf) = pre ++ (k, v) :: suf.
Proof.
  unfold dict_keys. induction pre as [|[k1 v1] pre IH]; intros Hk; simpl.
  - by rewrite String.eqb_refl.
  - rewrite fmap_cons in Hk. apply not_elem_of_cons in Hk as [Hne Hk]. simpl in Hne.
    destruct (String.eqb_spec k1 k) as [->|_]; [done|]. by rewrite IH.
Qed.

(** The loop that replaces the marker visits each entry once and
    changes only its value. *)
Lemma replace_na_loop_from (pre suf : pydict) :
  NoDup (dict_keys (pre ++ suf)) ->
  foldl (fun d kv => if is_na kv.2 then dict_set kv.1 (VInt 0) d else d)
        ((cell_zero <$> pre) ++ suf) suf
  = cell_zero <$> (pre ++ suf).
Proof.
  revert pre. induction suf as [|[k v] suf IH]; intros pre Hnd.
  - by rewrite !app_nil_r.
  - cbn [foldl fst snd].
    assert (Hk : k ∉ dict_keys (cell_zero <$> pre)).
    { unfold dict_keys in *. rewrite fmap_app in Hnd.
      apply NoDup_app in Hnd as (_ & Hdisj & _).
      intros Hin. apply (Hdisj k).
      - rewrite <- list_fmap_compose in Hin. exact Hin.
      - rewrite fmap_cons. left. }
    replace (if is_na v
             then dict_set k (VInt 0) ((cell_zero <$> pre) ++ (k, v) :: suf)
             else (cell_zero <$> pre) ++ (k, v) :: suf)
      with ((cell_zero <$> (pre ++ [(k, v)])) ++ suf).
    + rewrite IH; rewrite <- app_assoc; [reflexivity | exact Hnd].
    + rewrite fmap_app, <- app_assoc. cbn [fmap list_fmap app].
      unfold cell_zero at 2, na_to_zero. cbn [fst snd].
      destruct (is_na v); [| reflexivity].
      by rewrite dict_set_keys_present.
Qed.

Lemma replace_na_loop (d : pydict) :
  NoDup (dict_keys d) ->
  foldl (fun d kv => if is_na kv.2 then dict_set kv.1 (VInt 0) d else d) d d
  = cell_zero <$> d.
Proof. intros Hnd. exact (replace_na_loop_from [] d Hnd). Qed.

End Dicts.

Section Heap.

Lemma alter_last (f : pydict -> pydict) (h : heap_t) (d : pydict) :
  alter f (length h) (h ++ [d]) = h ++ [f d].
Proof.
  replace (length h) with (length h + 0)%nat by lia.
  by rewrite alter_app_r.
Qed.

Lemma setitem_last (k : string) (v : value) (h : heap_t) (d : pydict) :
  setitem (length h) k v (h ++ [d]) = h ++ [dict_set k v d].
Proof. apply alter_last. Qed.

Lemma lookup_last (h : heap_t) (d : pydict) : (h ++ [d]) !! length h = Some d.
Proof. by rewrite list_lookup_middle. Qed.

Lemma foldl_setitem_last {A} (key : A -> string) (val : A -> value)
      (h : heap_t) (d : pydict) (l : list A) :
  foldl (fun h' a => setitem (length h) (key a) (val a) h') (h ++ [d]) l
  = h ++ [foldl (fun d' a => dict_set (key a) (val a) d') d l].
Proof.
  revert d. induction l as [|a l IH]; intros d; [reflexivity|].
  cbn [foldl]. rewrite setitem_last. apply IH.
Qed.

Lemma foldl_replace_na_last (h : heap_t) (d : pydict) (l : pydict) :
  foldl (fun h' kv => if is_na kv.2 then setitem (length h) kv.1 (VInt 0) h' else h')
        (h ++ [d]) l
  = h ++ [foldl (fun d' kv => if is_na kv.2 then dict_set kv.1 (VInt 0) d' else d') d l].
Proof.
  revert d. induction l as [|[k v] l IH]; intros d; [reflexivity|].
  cbn [foldl fst snd]. destruct (is_na v).
  - rewrite setitem_last. apply IH.
  - apply IH.
Qed.

(** What [flatten] does once it holds the copy and the checklist. *)
Lemma flatten_tail (h0 : heap_t) (td hd : pydict) (t : Z) :
  (let flat := length h0 in
   let h := alter (dict_del "health") flat (h0 ++ [td]) in
   let h := setitem flat "timestamp" (VStr (isoformat t)) h in
   let h := foldl (fun h kv => setitem flat (health_column kv.1) kv.2 h) h hd in
   items ← h !! flat;
   let h := foldl (fun h kv => if is_na kv.2 then setitem flat kv.1 (VInt 0) h else h)
                  h items in
   Some (flat, h))
  = Some (length h0, h0 ++ [flat_dict (isoformat t) td hd]).
Proof.
  cbv zeta. rewrite alter_last, setitem_last.
  rewrite (foldl_setitem_last (fun kv => health_column kv.1) (fun kv => kv.2)).
  rewrite lookup_last. cbn [mbind option_bind].
  rewrite foldl_replace_na_last. reflexivity.
Qed.

(** [flatten] allocates one new object and changes no other. *)
Lemma flatten_grows (w : World) (flat : nat) (h : heap_t) :
  flatten w = Some (flat, h) ->
  flat = length (heap w) /\
  exists td hd, h = heap w ++ [flat_dict (isoformat (clock w)) td hd].
Proof.
  unfold flatten, copy, alloc. intros Hf.
  destruct (heap w !! telemetry_data w) as [td|] eqn:Htd; [|done].
  cbn [mbind option_bind] in Hf.
  assert (Htail : forall hd,
    Some hd ≫= (fun health_data =>
      let h := alter (dict_del "health") (length (heap w)) (heap w ++ [td]) in
      let h := setitem (length (heap w)) "timestamp" (VStr (isoformat (clock w))) h in
      let h := foldl (fun h kv => setitem (length (heap w)) (health_column kv.1) kv.2 h)
                     h health_data in
      items ← h !! length (heap w);
      let h := foldl (fun h kv => if is_na kv.2
                                  then setitem (length (heap w)) kv.1 (VInt 0) h else h)
                     h items in
      Some (length (heap w), h)) = Some (flat, h) ->
    flat = length (heap w) /\
    exists td' hd', h = heap w ++ [flat_dict (isoformat (clock w)) td' hd']).
  { intros hd Hx. cbn [mbind option_bind] in Hx.
    pose proof (flatten_tail (heap w) td hd (clock w)) as Ht. cbv zeta in Ht, Hx.
    rewrite Ht in Hx. injection Hx as <- <-. eauto. }
  destruct (dict_get "health" td) as [[s|z|r]|]; try done.
  - revert Hf. destruct ((heap w ++ [td]) !! r) as [hd|];
      [|intros Hx; cbv [mbind option_bind] in Hx; discriminate Hx].
    apply (Htail hd).
  - exact (Htail [] Hf).
Qed.

Lemma flatten_ok (w : World) (td hd : pydict) (r : nat) :
  heap w !! telemetry_data w = Some td ->
  dict_get "health" td = Some (VDict r) ->
  heap w !! r = Some hd ->
  flatten w = Some (length (heap w), heap w ++ [flat_dict (isoformat (clock w)) td hd]).
Proof.
  intros Htd Hh Hhd. unfold flatten, copy, alloc. rewrite Htd.
  cbn [mbind option_bind]. rewrite Hh.
  rewrite lookup_app_l by (by eapply lookup_lt_Some). rewrite Hhd.
  cbn [mbind option_bind].
  exact (flatten_tail (heap w) td hd (clock w)).
Qed.

Lemma log_tick_inv (io : io_result) (w : World) (r : World * list action) :
  log_to_csv_tick io w = Some r ->
  exists td hd, r = tick_result io (flat_dict (isoformat (clock w)) td hd) w.
Proof.
  unfold log_to_csv_tick. intros Ht.
  destruct (flatten w) as [[flat h]|] eqn:Hfl; [|done].
  destruct (flatten_grows _ _ _ Hfl) as (-> & td & hd & ->).
  cbn [mbind option_bind] in Ht. rewrite lookup_last in Ht.
  cbn [mbind option_bind] in Ht. exists td, hd. unfold tick_result.
  destruct (write_csv io _ (set_heap (heap w ++ [_]) w)) as [w1 acts].
  by injection Ht as <-.
Qed.

Lemma log_tick_ok (io : io_result) (w : World) (td hd : pydict) (r : nat) :
  heap w !! telemetry_data w = Some td ->
  dict_get "health" td = Some (VDict r) ->
  heap w !! r = Some hd ->
  log_to_csv_tick io w = Some (tick_result io (flat_dict (isoformat (clock w)) td hd) w).
Proof.
  intros Htd Hh Hhd. unfold log_to_csv_tick.
  rewrite (flatten_ok w td hd r) by done.
  cbn [mbind option_bind]. rewrite lookup_last. cbn [mbind option_bind].
  unfold tick_result.
  by destruct (write_csv io _ (set_heap (heap w ++ [flat_dict (isoformat (clock w)) td hd]) w)).
Qed.

End Heap.

(** Case analysis of one step: [H : step ev w = Some (w', acts)]. *)
Ltac tick_inv H :=
  let td := fresh "td" in
  let hd := fresh "hd" in
  apply log_tick_inv in H as (td & hd & H);
  unfold tick_result, write_csv in H;
  repeat case_match; simplify_eq.

Ltac step_inv H :=
  unfold step in H;
  repeat case_match; simplify_eq;
  try tick_inv H;
  unfold display_loop_tick, task_except, run_except,
    launch, enter_run, with_actions in *;
  repeat case_match; simplify_eq.


(** ** The Store under the fetchers' writes *)

Section StoreWrites.

Lemma field_store_scalar (w : World) (k k' s : string) :
  store_ok w -> k <> "health" ->
  field (store k (VStr s) w) k' =
  if String.eqb k k' then Some (Scalar (VStr s)) else field w k'.
Proof.
  intros (td & r & hd & Htd & Hh & Hr & Hhd & Hsc) Hk.
  unfold field, view, store, setitem. cbn [heap telemetry_data set_heap].
  rewrite list_lookup_alter_eq, Htd. cbn [fmap option_fmap option_map mbind option_bind].
  rewrite dict_get_set. destruct (String.eqb_spec k k') as [->|Hne]; [reflexivity|].
  destruct (dict_get k' td) as [[s'|z|r']|] eqn:Hk'; cbn [mbind option_bind]; try reflexivity.
  destruct (decide (k' = "health")) as [->|Hnh].
  - rewrite Hh in Hk'. injection Hk' as <-. by rewrite list_lookup_alter_ne.
  - destruct (Hsc _ _ Hk' Hnh) as [? [=]].
Qed.

Lemma store_ok_store_scalar (w : World) (k s : string) :
  store_ok w -> k <> "health" -> store_ok (store k (VStr s) w).
Proof.
  intros (td & r & hd & Htd & Hh & Hr & Hhd & Hsc) Hk.
  exists (dict_set k (VStr s) td), r, hd.
  unfold store, setitem. cbn [heap telemetry_data set_heap].
  rewrite list_lookup_alter_eq, Htd, list_lookup_alter_ne by done.
  repeat split; try done.
  - rewrite dict_get_set. destruct (String.eqb_spec k "health"); [congruence | done].
  - intros k' v. rewrite dict_get_set.
    destruct (String.eqb_spec k k'); [intros [= <-]; eauto | apply Hsc].
Qed.

Lemma field_fetch_health (w : World) (health : Health) (k' : string) :
  store_ok w ->
  field (fetch_health_item health w) k' =
  if String.eqb "health" k' then Some (Checklist (health_dict health)) else field w k'.
Proof.
  intros (td & r & hd & Htd & Hh & Hr & Hhd & Hsc).
  pose proof (lookup_lt_Some _ _ _ Htd) as Hlt.
  unfold field, view, fetch_health_item, alloc, store, setitem.
  cbn [heap telemetry_data set_heap].
  rewrite list_lookup_alter_eq, lookup_app_l, Htd by done.
  cbn [fmap option_fmap option_map mbind option_bind].
  rewrite dict_get_set. destruct (String.eqb_spec "health" k') as [<-|Hne].
  - cbn [mbind option_bind]. rewrite list_lookup_alter_ne by lia.
    by rewrite lookup_last.
  - destruct (dict_get k' td) as [[s'|z|r']|] eqn:Hk'; cbn [mbind option_bind]; try reflexivity.
    destruct (Hsc _ _ Hk') as [? [=]]. congruence.
Qed.

Lemma store_ok_fetch_health (w : World) (health : Health) :
  store_ok w -> store_ok (fetch_health_item health w).
Proof.
  intros (td & r & hd & Htd & Hh & Hr & Hhd & Hsc).
  pose proof (lookup_lt_Some _ _ _ Htd) as Hlt.
  exists (dict_set "health" (VDict (length (heap w))) td), (length (heap w)), (health_dict health).
  unfold fetch_health_item, alloc, store, setitem. cbn [heap telemetry_data set_heap].
  rewrite list_lookup_alter_eq, lookup_app_l, Htd by done.
  rewrite list_lookup_alter_ne, lookup_last by lia.
  repeat split; try done; try lia.
  - by rewrite dict_get_set.
  - intros k' v. rewrite dict_get_set.
    destruct (String.eqb_spec "health" k'); [congruence | apply Hsc].
Qed.

Ltac case_keys k :=
  repeat match goal with
         | |- context [String.eqb ?a k] =>
             destruct (String.eqb_spec a k) as [<-|?]; [reflexivity|]
         end;
  reflexivity.

Ltac store_steps :=
  repeat first
    [ rewrite field_store_scalar by (repeat apply store_ok_store_scalar; done)
    | apply store_ok_store_scalar; [|done] ].

(** One delivered item changes exactly the fields of its category,
    each to the value the item carries. *)
Lemma apply_item_field (i : item) (w : World) (k : string) :
  store_ok w ->
  field (apply_item i w) k =
  match assoc k (spec_item_updates i) with
  | Some v => Some v
  | None => field w k
  end.
Proof.
  intros Hok.
  destruct i as [pos|att|batt|gps|mode|armed|rc|health]; cbn [apply_item].
  - unfold fetch_position_item. cbv zeta. store_steps.
    cbn [spec_item_updates assoc].
    case_keys k.
  - unfold fetch_attitude_item. cbv zeta. store_steps.
    cbn [spec_item_updates assoc].
    case_keys k.
  - unfold fetch_battery_item, times_one. cbv zeta. store_steps.
    cbn [spec_item_updates assoc].
    case_keys k.
  - unfold fetch_gps_item. cbv zeta. store_steps.
    cbn [spec_item_updates assoc].
    case_keys k.
  - unfold fetch_flight_mode_item. store_steps. cbn [spec_item_updates assoc]. case_keys k.
  - unfold fetch_armed_status_item. store_steps. cbn [spec_item_updates assoc]. case_keys k.
  - unfold fetch_rc_signal_item. cbn [spec_item_updates assoc].
    destruct (signal_strength_percent rc); store_steps; case_keys k.
  - cbn [fetch_health_item]. rewrite field_fetch_health by done.
    cbn [spec_item_updates assoc]. case_keys k.
Qed.

Lemma apply_item_ok (i : item) (w : World) : store_ok w -> store_ok (apply_item i w).
Proof.
  intros Hok.
  destruct i as [pos|att|batt|gps|mode|armed|rc|health]; cbn [apply_item];
    [unfold fetch_position_item | unfold fetch_attitude_item
    | unfold fetch_battery_item | unfold fetch_gps_item
    | unfold fetch_flight_mode_item | unfold fetch_armed_status_item
    | unfold fetch_rc_signal_item; destruct (signal_strength_percent rc)
    | by apply store_ok_fetch_health ];
    cbv zeta; repeat (apply store_ok_store_scalar; [|done]); done.
Qed.

Lemma load_module_ok (t0 : Z) (file : option (list csv_row)) :
  store_ok (load_module t0 file).
Proof.
  exists (telemetry_literal 1), 1%nat, health_literal.
  repeat split; try done.
  intros k v Hk Hne. apply dict_get_elem in Hk. unfold telemetry_literal in Hk.
  repeat (apply elem_of_cons in Hk as [[= -> ->]|Hk]; [first [by eauto | congruence]|]).
  by apply elem_of_nil in Hk.
Qed.

End StoreWrites.

(** ** The steps of the scheduler *)

Section Scheduler.


(** An item changes nothing but objects of the heap. *)
Lemma apply_item_frame (i : item) (w : World) :
  apply_item i w = set_heap (heap (apply_item i w)) w.
Proof.
  destruct i as [pos|att|batt|gps|mode|armed|rc|health]; try reflexivity.
  cbn [apply_item]. unfold fetch_rc_signal_item.
  by destruct (signal_strength_percent rc).
Qed.

(** The module-level names are never rebound. *)
Lemma step_globals (ev : event) (w w' : World) (acts : list action) :
  step ev w = Some (w', acts) ->
  telemetry_data w' = telemetry_data w /\ filename w' = filename w.
Proof.
  intros Hs. step_inv Hs; try done.
  by rewrite apply_item_frame.
Qed.

(** Only the fetchers write into existing objects: every other step
    leaves them as they are and at most allocates. *)
Lemma step_heap (ev : event) (w w' : World) (acts : list action) :
  step ev w = Some (w', acts) ->
  (exists i, ev = EvItem i /\ w' = apply_item i w) \/
  ((forall k, event_update k ev = None) /\ exists ext, heap w' = heap w ++ ext).
Proof.
  intros Hs. step_inv Hs; eauto;
    right; (split; [done|]);
    first [by exists [] ; rewrite app_nil_r | by eexists].
Qed.

Lemma store_extends (w w' : World) (ext : heap_t) :
  store_ok w ->
  telemetry_data w' = telemetry_data w ->
  heap w' = heap w ++ ext ->
  store_ok w' /\ forall k, field w' k = field w k.
Proof.
  intros (td & r & hd & Htd & Hh & Hr & Hhd & Hsc) Ht Hheap.
  assert (Htd' : heap w' !! telemetry_data w' = Some td).
  { rewrite Ht, Hheap. by apply lookup_app_l_Some. }
  assert (Hhd' : heap w' !! r = Some hd).
  { rewrite Hheap. by apply lookup_app_l_Some. }
  split.
  - exists td, r, hd. rewrite Ht in *. done.
  - intros k. unfold field, view. rewrite Htd', Htd. cbn [mbind option_bind].
    destruct (dict_get k td) as [[s|z|r']|] eqn:Hk; cbn [mbind option_bind]; try done.
    destruct (decide (k = "health")) as [->|Hne].
    + rewrite Hh in Hk. injection Hk as <-. by rewrite Hhd', Hhd.
    + destruct (Hsc _ _ Hk Hne) as [? [=]].
Qed.

(** A step changes the Store only by the update its event completes. *)
Lemma step_store (ev : event) (w w' : World) (acts : list action) :
  store_ok w ->
  step ev w = Some (w', acts) ->
  store_ok w' /\
  forall k, field w' k = match event_update k ev with
                         | Some v => Some v
                         | None => field w k
                         end.
Proof.
  intros Hok Hs.
  destruct (step_heap _ _ _ _ Hs) as [(i & -> & ->)|[Hnone [ext Hext]]].
  - split; [by apply apply_item_ok | intros k; by apply apply_item_field].
  - destruct (step_globals _ _ _ _ Hs) as [Ht _].
    destruct (store_extends w w' ext Hok Ht Hext) as [Hok' Hf].
    split; [done|]. intros k. by rewrite Hf, Hnone.
Qed.

Lemma run_nil_inv (w w' : World) (acts : list action) :
  run [] w = Some (w', acts) -> w' = w /\ acts = [].
Proof. by intros [= <- <-]. Qed.

Lemma run_cons_inv (ev : event) (evs : list event) (w w' : World) (acts : list action) :
  run (ev :: evs) w = Some (w', acts) ->
  exists w1 a1 a2,
    step ev w = Some (w1, a1) /\ run evs w1 = Some (w', a2) /\ acts = a1 ++ a2.
Proof.
  cbn [run]. intros Hr.
  destruct (step ev w) as [[w1 a1]|] eqn:Hs; [|done]. cbn [mbind option_bind] in Hr.
  destruct (run evs w1) as [[w2 a2]|] eqn:Hr'; [|done]. cbn [mbind option_bind] in Hr.
  injection Hr as <- <-. by exists w1, a1, a2.
Qed.

Lemma run_app (evs1 evs2 : list event) (w : World) :
  run (evs1 ++ evs2) w =
  '(w1, a1) ← run evs1 w; '(w2, a2) ← run evs2 w1; Some (w2, a1 ++ a2).
Proof.
  revert w. induction evs1 as [|ev evs1 IH]; intros w.
  - cbn [app run mbind option_bind]. by destruct (run evs2 w) as [[??]|].
  - cbn [app run]. destruct (step ev w) as [[w1 a1]|]; [|done].
    cbn [mbind option_bind]. rewrite IH.
    destruct (run evs1 w1) as [[w2 a2]|]; [|done]. cbn [mbind option_bind].
    destruct (run evs2 w2) as [[w3 a3]|]; [|done]. cbn [mbind option_bind].
    by rewrite app_assoc.
Qed.

Lemma run_globals (evs : list event) (w w' : World) (acts : list action) :
  run evs w = Some (w', acts) ->
  telemetry_data w' = telemetry_data w /\ filename w' = filename w.
Proof.
  revert w acts. induction evs as [|ev evs IH]; intros w acts Hr.
  - by apply run_nil_inv in Hr as [-> _].
  - apply run_cons_inv in Hr as (w1 & a1 & a2 & Hs & Hr & _).
    destruct (step_globals _ _ _ _ Hs) as [Ht Hf].
    destruct (IH _ _ Hr) as [Ht' Hf']. split; congruence.
Qed.

Lemma latest_update_cons (k : string) (ev : event) (evs : list event) :
  latest_update k (ev :: evs) =
  match latest_update k evs with
  | Some v => Some v
  | None => event_update k ev
  end.
Proof.
  unfold latest_update. cbn [omap list_omap].
  destruct (event_update k ev) as [v|].
  - by rewrite last_cons.
  - by destruct (last (omap (event_update k) evs)).
Qed.

(** After any run the Store holds, for each field, the latest update
    the run completed for it, and is otherwise as before. *)
Lemma run_store (evs : list event) (w w' : World) (acts : list action) :
  store_ok w ->
  run evs w = Some (w', acts) ->
  store_ok w' /\
  forall k, field w' k = match latest_update k evs with
                         | Some v => Some v
                         | None => field w k
                         end.
Proof.
  revert w acts. induction evs as [|ev evs IH]; intros w acts Hok Hr.
  - by apply run_nil_inv in Hr as [-> _].
  - apply run_cons_inv in Hr as (w1 & a1 & a2 & Hs & Hr & _).
    destruct (step_store _ _ _ _ Hok Hs) as [Hok1 Hf1].
    destruct (IH _ _ Hok1 Hr) as [Hok' Hf]. split; [done|].
    intros k. rewrite Hf, latest_update_cons, Hf1.
    by destruct (latest_update k evs).
Qed.

(** Every state of the program has a well-formed Store. *)
Lemma reachable_store_ok (t0 : Z) (file : option (list csv_row)) (evs : list event)
      (w : World) (acts : list action) :
  run evs (main t0 file).1 = Some (w, acts) -> store_ok w.
Proof.
  intros Hr. by destruct (run_store evs _ _ _ (load_module_ok t0 file) Hr).
Qed.


End Scheduler.

(** ** Formatted text *)

Section Formatting.

Lemma digit_code (d : Z) :
  exists n, (n < 10)%nat /\ digit d = Ascii.ascii_of_nat (48 + n).
Proof.
  exists (Z.to_nat (d mod 10)). split; [|reflexivity].
  pose proof (Z.mod_pos_bound d 10 ltac:(lia)). lia.
Qed.

(** A decimal digit is none of the characters outside ["0".."9"]. *)
Lemma digit_neq (d : Z) (c : ascii) :
  (Ascii.nat_of_ascii c < 48 \/ 57 < Ascii.nat_of_ascii c)%nat -> digit d <> c.
Proof.
  intros Hc Heq. destruct (digit_code d) as (n & Hn & Hd).
  rewrite Hd in Heq. apply (f_equal Ascii.nat_of_ascii) in Heq.
  rewrite Ascii.nat_ascii_embedding in Heq by lia. lia.
Qed.

Lemma fixed_digits_length (n : nat) (x : Z) (acc : string) :
  String.length (fixed_digits n x acc) = (n + String.length acc)%nat.
Proof.
  revert x acc. induction n as [|n IH]; intros x acc; [reflexivity|].
  cbn [fixed_digits]. rewrite IH. cbn [String.length]. lia.
Qed.

Lemma fixed_digits_head (n : nat) (x : Z) (acc : string) :
  exists d rest, fixed_digits (S n) x acc = String (digit d) rest.
Proof.
  revert x acc. induction n as [|n IH]; intros x acc.
  - by exists x, acc.
  - change (fixed_digits (S (S n)) x acc)
      with (fixed_digits (S n) (x / 10) (String (digit x) acc)).
    apply IH.
Qed.

Lemma str_of_int_head (z : Z) :
  exists c rest, str_of_int z = String c rest /\ c <> "N"%char.
Proof.
  unfold str_of_int. destruct (Z.to_int z) as [u|u].
  - destruct u; eexists _, _; (split; [reflexivity | discriminate]).
  - eexists _, _. split; [reflexivity | discriminate].
Qed.

Lemma head_not_na (c : ascii) (rest : string) :
  c <> "N"%char -> is_na (VStr (String c rest)) = false.
Proof.
  intros Hc. cbn [is_na String.eqb]. apply Ascii.eqb_neq in Hc. by rewrite Hc.
Qed.

(** A formatted float is never the marker. *)
Lemma format_f_not_na (n : nat) (x : pyfloat) : is_na (VStr (format_f n x)) = false.
Proof.
  destruct x as [neg m e|neg|]; [|by destruct neg|reflexivity].
  unfold format_f. cbv zeta. destruct neg; [reflexivity|].
  destruct (str_of_int_head (scaled_round n m e / 10 ^ Z.of_nat n)) as (c & rest & -> & Hc).
  cbn [String.append]. by apply head_not_na.
Qed.

(** [:.<n>f] of a finite float ends in a point and [n] digits. *)
Lemma format_f_fraction (n : nat) (neg : bool) (m : N) (e : Z) :
  exists int frac,
    format_f (S n) (FFinite neg m e) = int +:+ "." +:+ frac /\
    String.length frac = S n.
Proof.
  unfold format_f. cbv zeta.
  set (r := scaled_round (S n) m e). set (p := 10 ^ Z.of_nat (S n)).
  exists ((if neg then "-" else "") +:+ str_of_int (r / p)), (fixed_digits (S n) (r mod p) "").
  split.
  - by rewrite string_app_assoc.
  - rewrite fixed_digits_length. cbn [String.length]. lia.
Qed.

Lemma isoformat_head (t : Z) : exists d rest, isoformat t = String (digit d) rest.
Proof.
  unfold isoformat. destruct (civil t) as [[y m] d]. unfold pad4.
  destruct (fixed_digits_head 3 y "") as (d0 & rest & ->). by eexists _, _.
Qed.

Lemma isoformat_not_na (t : Z) : is_na (VStr (isoformat t)) = false.
Proof.
  destruct (isoformat_head t) as (d & rest & ->). apply head_not_na.
  apply digit_neq. right. vm_compute. lia.
Qed.

Lemma isoformat_not_header (t : Z) : isoformat t <> "timestamp".
Proof.
  destruct (isoformat_head t) as (d & rest & ->). intros [= Hd _].
  revert Hd. apply digit_neq. right. vm_compute. lia.
Qed.

End Formatting.

(** ** The serialized row *)

Section Rows.

Lemma dict_get_pairs (f : string -> value) (k : string) (l : list string) :
  k ∈ l -> dict_get k (map (fun k' => (k', f k')) l) = Some (f k).
Proof.
  induction l as [|k0 l IH]; intros Hk; [by apply elem_of_nil in Hk|].
  cbn [map dict_get]. destruct (String.eqb_spec k0 k) as [->|Hne]; [done|].
  apply elem_of_cons in Hk as [->|Hk]; [done | by apply IH].
Qed.

Lemma writerow_pairs (f : string -> value) (l fields : list string) :
  (forall k, k ∈ fields -> k ∈ l) ->
  writerow fields (map (fun k => (k, f k)) l) = map f fields.
Proof.
  unfold writerow. induction fields as [|k fields IH]; intros Hsub; [done|].
  cbn [map]. rewrite dict_get_pairs by (apply Hsub; left).
  rewrite IH; [done|]. intros k' Hk'. apply Hsub. by right.
Qed.

Lemma csv_row_cells (ts : string) (td hd : pydict) :
  csv_row_of ts td hd = map (serialized_cell (flat_dict ts td hd)) header.
Proof. unfold csv_row_of, row_data. by apply writerow_pairs. Qed.

Lemma is_na_na_to_zero (v : value) : is_na (na_to_zero v) = false.
Proof. unfold na_to_zero. by destruct (is_na v) eqn:Hv. Qed.

Lemma na_to_zero_id (v : value) : is_na v = false -> na_to_zero v = v.
Proof. unfold na_to_zero. by intros ->. Qed.

Lemma dict_get_cell_zero (k : string) (d : pydict) :
  dict_get k (cell_zero <$> d) = na_to_zero <$> dict_get k d.
Proof.
  induction d as [|[k0 v0] d IH]; [done|].
  cbn [fmap list_fmap cell_zero fst snd dict_get].
  destruct (String.eqb_spec k0 k); [done | exact IH].
Qed.

(** For a dictionary without repeated keys, a cell is the stored
    value with the marker replaced, and [0] for a missing column. *)
Lemma csv_row_nodup (ts : string) (td hd : pydict) :
  NoDup (dict_keys (merged_dict ts td hd)) ->
  csv_row_of ts td hd =
  map (fun k => match dict_get k (merged_dict ts td hd) with
                | Some v => na_to_zero v
                | None => VInt 0
                end) header.
Proof.
  intros Hnd. rewrite csv_row_cells. unfold flat_dict. cbv zeta.
  rewrite replace_na_loop by done.
  apply map_ext. intros k. unfold serialized_cell.
  rewrite dict_get_cell_zero.
  destruct (dict_get k (merged_dict ts td hd)) as [v|]; [|done].
  cbn [fmap option_fmap option_map default id]. by rewrite is_na_na_to_zero.
Qed.

Lemma health_column_not_timestamp (key : string) :
  String.eqb (health_column key) "timestamp" = false.
Proof. reflexivity. Qed.

(** Whatever the Store holds, the timestamp column is the timestamp
    or (were it the marker) [0]. *)
Lemma flat_dict_timestamp (ts : string) (td hd : pydict) :
  dict_get "timestamp" (flat_dict ts td hd) = Some (VStr ts) \/
  dict_get "timestamp" (flat_dict ts td hd) = Some (VInt 0).
Proof.
  unfold flat_dict, merged_dict. cbv zeta.
  set (d0 := dict_set "timestamp" (VStr ts) (dict_del "health" td)).
  assert (H0 : dict_get "timestamp" d0 = Some (VStr ts) \/
               dict_get "timestamp" d0 = Some (VInt 0)).
  { left. unfold d0. by rewrite dict_get_set, String.eqb_refl. }
  clearbody d0.
  assert (H1 : forall d,
    dict_get "timestamp" d = Some (VStr ts) \/ dict_get "timestamp" d = Some (VInt 0) ->
    dict_get "timestamp" (foldl (fun d kv => dict_set (health_column kv.1) kv.2 d) d hd)
      = Some (VStr ts) \/
    dict_get "timestamp" (foldl (fun d kv => dict_set (health_column kv.1) kv.2 d) d hd)
      = Some (VInt 0)).
  { induction hd as [|[k v] hd IH]; intros d Hd; [done|].
    cbn [foldl fst snd]. apply IH.
    by rewrite dict_get_set, health_column_not_timestamp. }
  specialize (H1 d0 H0).
  set (d1 := foldl (fun d kv => dict_set (health_column kv.1) kv.2 d) d0 hd) in *.
  clearbody d1.
  assert (H2 : forall (items d : pydict),
    dict_get "timestamp" d = Some (VStr ts) \/ dict_get "timestamp" d = Some (VInt 0) ->
    dict_get "timestamp"
      (foldl (fun d kv => if is_na kv.2 then dict_set kv.1 (VInt 0) d else d) d items)
      = Some (VStr ts) \/
    dict_get "timestamp"
      (foldl (fun d kv => if is_na kv.2 then dict_set kv.1 (VInt 0) d else d) d items)
      = Some (VInt 0)).
  { induction items as [|[k v] items IH]; intros d Hd; [done|].
    cbn [foldl fst snd]. apply IH. destruct (is_na v); [|done].
    rewrite dict_get_set. destruct (String.eqb_spec k "timestamp"); [by right | done]. }
  exact (H2 d1 d1 H1).
Qed.

(** A data row is never the header row. *)
Lemma csv_row_not_header (t : Z) (td hd : pydict) :
  csv_row_of (isoformat t) td hd <> map VStr header.
Proof.
  pose proof (isoformat_not_na t) as Hna.
  pose proof (isoformat_not_header t) as Hne.
  revert Hna Hne. generalize (isoformat t). intros ts Hna Hne.
  rewrite csv_row_cells. cbn [map header]. intros [= Hcell _].
  unfold serialized_cell in Hcell.
  destruct (flat_dict_timestamp ts td hd) as [Hts|Hts];
    rewrite Hts in Hcell; cbn [default id] in Hcell.
  - rewrite Hna in Hcell. by injection Hcell.
  - done.
Qed.

End Rows.

Section ErrorLogInvariant.

Lemma step_error_bound (ev : event) (w w' : World) (acts : list action) :
  (length (error_list w) <= MAX_ERRORS_DISPLAYED)%nat ->
  step ev w = Some (w', acts) ->
  (length (error_list w') <= MAX_ERRORS_DISPLAYED)%nat.
Proof.
  intros Hl Hs. step_inv Hs.
  all: try rewrite apply_item_frame.
  all: cbn [error_list set_sup set_task set_tasks set_disk set_heap set_clock
            set_error_list add_error fst snd].
  all: first [exact Hl | by apply push_error_length].
Qed.

(** The error log never holds more than five entries. *)
Lemma run_error_bound (evs : list event) (w w' : World) (acts : list action) :
  (length (error_list w) <= MAX_ERRORS_DISPLAYED)%nat ->
  run evs w = Some (w', acts) ->
  (length (error_list w') <= MAX_ERRORS_DISPLAYED)%nat.
Proof.
  revert w acts. induction evs as [|ev evs IH]; intros w acts Hl Hr.
  - by apply run_nil_inv in Hr as [-> _].
  - apply run_cons_inv in Hr as (w1 & a1 & a2 & Hs & Hr & _).
    eapply IH; [|exact Hr]. by eapply step_error_bound.
Qed.

End ErrorLogInvariant.

(** ** Failures of one fetcher *)

Section FetcherFailures.

Variable c : Category.

Lemma tagged_entry (who : Coroutine) (e : string) (w : World) :
  tagged who (error_entry (error_tag who +:+ e) w).
Proof. by exists (strftime_HMS (clock w)), e. Qed.

Lemma filter_prints (f : action -> bool) (lines : list string) (rest : list action) :
  (forall line, f (ActPrint line) = false) ->
  List.filter f (map ActPrint lines ++ rest) = List.filter f rest.
Proof.
  intros Hf. induction lines as [|line lines IH]; [done|].
  cbn [map app List.filter]. by rewrite Hf.
Qed.

Lemma omap_prints {A} (f : action -> option A) (lines : list string) (rest : list action) :
  (forall line, f (ActPrint line) = None) ->
  omap f (map ActPrint lines ++ rest) = omap f rest.
Proof.
  intros Hf. induction lines as [|line lines IH]; [done|].
  cbn [map app omap list_omap]. by rewrite Hf.
Qed.

(** What one step adds to the account of fetcher [c], once the
    tasks run. *)
Lemma step_fetcher_accounting (ev : event) (w w' : World) (acts : list action) :
  sup w = SupRunning ->
  step ev w = Some (w', acts) ->
  sup w' = SupRunning /\
  (subscriptions c acts + streaming (tasks w (Fetcher c)) =
   length (failures_of c [ev]) + stops_of c [ev] + streaming (tasks w' (Fetcher c)))%nat /\
  length (errors_of (TaskOf (Fetcher c)) acts) = length (failures_of c [ev]) /\
  Forall (tagged (TaskOf (Fetcher c))) (errors_of (TaskOf (Fetcher c)) acts) /\
  sleeps_of (TaskOf (Fetcher c)) acts = replicate (length (failures_of c [ev])) 1.
Proof.
  intros Hsup Hs. step_inv Hs.
  all: try congruence.
  all: try rewrite apply_item_frame.
  all: unfold subscriptions, errors_of, sleeps_of, failures_of, stops_of.
  all: cbn -[error_entry error_tag Z.add].
  all: rewrite ?filter_prints, ?omap_prints by done.
  all: cbn -[error_entry error_tag Z.add].
  all: repeat (case_decide || case_bool_decide); simplify_eq.
  all: cbn -[error_entry error_tag Z.add].
  all: repeat match goal with
              | H : tasks _ _ = _ |- _ => rewrite H
              | H : runnable (tasks ?w0 ?t) _ = true |- _ =>
                  destruct (tasks w0 t); [discriminate H| | discriminate H|]
              end.
  all: cbn -[error_entry error_tag Z.add].
  all: repeat split; try done; try lia.
  all: try (repeat constructor; apply tagged_entry).
Qed.

Lemma subscriptions_app (a1 a2 : list action) :
  subscriptions c (a1 ++ a2) = (subscriptions c a1 + subscriptions c a2)%nat.
Proof. unfold subscriptions. by rewrite List.filter_app, length_app. Qed.

Lemma errors_of_app (who : Coroutine) (a1 a2 : list action) :
  errors_of who (a1 ++ a2) = errors_of who a1 ++ errors_of who a2.
Proof. apply omap_app. Qed.

Lemma sleeps_of_app (who : Coroutine) (a1 a2 : list action) :
  sleeps_of who (a1 ++ a2) = sleeps_of who a1 ++ sleeps_of who a2.
Proof. apply omap_app. Qed.

Lemma failures_of_cons (ev : event) (evs : list event) :
  failures_of c (ev :: evs) = failures_of c [ev] ++ failures_of c evs.
Proof. exact (omap_app _ [ev] evs). Qed.

Lemma stops_of_cons (ev : event) (evs : list event) :
  stops_of c (ev :: evs) = (stops_of c [ev] + stops_of c evs)%nat.
Proof.
  unfold stops_of. change (ev :: evs) with ([ev] ++ evs).
  by rewrite List.filter_app, length_app.
Qed.

(** In every run of the launched tasks, whatever else is scheduled in
    between: one error entry with the tag of [c] and one sleep of one
    time unit per failure of its subscription, and one subscription
    per failure or end of stream it has recovered from. *)
Lemma run_fetcher_accounting (evs : list event) (w w' : World) (acts : list action) :
  sup w = SupRunning ->
  run evs w = Some (w', acts) ->
  sup w' = SupRunning /\
  (subscriptions c acts + streaming (tasks w (Fetcher c)) =
   length (failures_of c evs) + stops_of c evs + streaming (tasks w' (Fetcher c)))%nat /\
  length (errors_of (TaskOf (Fetcher c)) acts) = length (failures_of c evs) /\
  Forall (tagged (TaskOf (Fetcher c))) (errors_of (TaskOf (Fetcher c)) acts) /\
  sleeps_of (TaskOf (Fetcher c)) acts = replicate (length (failures_of c evs)) 1.
Proof.
  revert w acts. induction evs as [|ev evs IH]; intros w acts Hsup Hr.
  - apply run_nil_inv in Hr as [-> ->]. by repeat split.
  - apply run_cons_inv in Hr as (w1 & a1 & a2 & Hs & Hr & ->).
    destruct (step_fetcher_accounting _ _ _ _ Hsup Hs) as (Hsup1 & Hn1 & He1 & Ht1 & Hz1).
    destruct (IH _ _ Hsup1 Hr) as (Hsup' & Hn & He & Ht & Hz).
    rewrite subscriptions_app, errors_of_app, sleeps_of_app, failures_of_cons,
      stops_of_cons, !length_app, replicate_add, Hz1, Hz, He1, He.
    repeat split; try done; [lia | by apply Forall_app].
Qed.

(** One failure: caught in the fetcher's own loop. *)
Lemma fetcher_failure_step (e : string) (w : World) :
  tasks w (Fetcher c) = Streaming ->
  exists w1,
    step (EvStreamRaise c e) w =
      Some (w1, [ActAddError (TaskOf (Fetcher c))
                   (error_entry (error_tag (TaskOf (Fetcher c)) +:+ e) w);
                 ActSleep (TaskOf (Fetcher c)) 1]) /\
    error_list w1 =
      push_error (error_entry (error_tag (TaskOf (Fetcher c)) +:+ e) w) (error_list w) /\
    tasks w1 (Fetcher c) = Sleeping (clock w + 1) /\
    (forall t, t <> Fetcher c -> tasks w1 t = tasks w t) /\
    sup w1 = sup w /\ heap w1 = heap w /\ disk w1 = disk w /\ clock w1 = clock w.
Proof.
  intros Hst. unfold step. rewrite Hst. eexists. split; [reflexivity|].
  cbn -[error_entry error_tag Z.add]. repeat split.
  - by case_decide.
  - intros t Ht. by case_decide.
Qed.

(** A sleeping fetcher re-subscribes when its delay has passed, and
    not before. *)
Lemma fetcher_resume_step (u : Z) (w : World) :
  tasks w (Fetcher c) = Sleeping u ->
  step (EvResume (TaskOf (Fetcher c))) w =
  if u <=? clock w
  then Some (set_task (Fetcher c) Streaming w, [ActSubscribe c])
  else None.
Proof. intros Hst. unfold step. by rewrite Hst. Qed.

(** One round: the failure, the delay, the new subscription. *)
Lemma failure_round_run (f : string * N) (w : World) :
  tasks w (Fetcher c) = Streaming ->
  exists w',
    run (failure_round c f) w =
      Some (w', [ActAddError (TaskOf (Fetcher c))
                   (error_entry (error_tag (TaskOf (Fetcher c)) +:+ f.1) w);
                 ActSleep (TaskOf (Fetcher c)) 1;
                 ActSubscribe c]) /\
    tasks w' (Fetcher c) = Streaming /\
    (forall t, t <> Fetcher c -> tasks w' t = tasks w t) /\
    sup w' = sup w /\ heap w' = heap w /\ disk w' = disk w.
Proof.
  intros Hst. destruct f as [e extra].
  destruct (fetcher_failure_step e w Hst) as (w1 & Hs1 & _ & Hst1 & Hfr1 & Hsup1 & Hh1 & Hd1 & Hc1).
  set (w2 := set_clock (clock w1 + Z.of_N (1 + extra)) w1).
  assert (Hs3 : step (EvResume (TaskOf (Fetcher c))) w2
                = Some (set_task (Fetcher c) Streaming w2, [ActSubscribe c])).
  { rewrite (fetcher_resume_step (clock w + 1) w2) by exact Hst1.
    replace (clock w + 1 <=? clock w2) with true; [done|].
    symmetry. apply Z.leb_le. unfold w2. cbn [clock set_clock]. lia. }
  exists (set_task (Fetcher c) Streaming w2). split.
  - unfold failure_round. cbn [run fst snd]. rewrite Hs1. cbn [mbind option_bind].
    change (step (EvTime (1 + extra)) w1) with (Some (w2, @nil action)).
    cbn [mbind option_bind]. rewrite Hs3. reflexivity.
  - cbn [tasks set_task set_tasks sup heap disk]. repeat split; try done.
    + by rewrite decide_True.
    + intros t Ht. rewrite decide_False by done. by apply Hfr1.
Qed.

Lemma failure_rounds (fails : list (string * N)) (w : World) :
  tasks w (Fetcher c) = Streaming ->
  exists w' acts,
    run (concat (failure_round c <$> fails)) w = Some (w', acts) /\
    tasks w' (Fetcher c) = Streaming /\
    (forall t, t <> Fetcher c -> tasks w' t = tasks w t) /\
    sup w' = sup w /\ heap w' = heap w /\ disk w' = disk w /\
    failures_of c (concat (failure_round c <$> fails)) = fails.*1 /\
    stops_of c (concat (failure_round c <$> fails)) = 0%nat.
Proof.
  revert w. induction fails as [|f fails IH]; intros w Hst.
  - by exists w, [].
  - destruct (failure_round_run f w Hst) as (w1 & Hr1 & Hst1 & Hfr1 & Hsup1 & Hh1 & Hd1).
    destruct (IH w1 Hst1) as (w' & acts & Hr & Hst' & Hfr & Hsup & Hh & Hd & Hfl & Hstop).
    rewrite fmap_cons, concat_cons, run_app, Hr1. cbn [mbind option_bind].
    rewrite Hr. cbn [mbind option_bind]. eexists _, _. split; [reflexivity|].
    repeat split; try congruence.
    + intros t Ht. by rewrite Hfr, Hfr1.
    + unfold failures_of in *. rewrite omap_app, Hfl.
      cbn [failure_round omap list_omap app fmap list_fmap]. by rewrite decide_True.
    + unfold stops_of in *. rewrite List.filter_app, length_app, Hstop. reflexivity.
Qed.

End FetcherFailures.

(** ** The supervisor *)

Section SupervisorRetry.

Lemma not_connected_states (n : nat) (w : World) :
  sup w = SupAwaitConnected ->
  run (replicate n (EvConnState false)) w = Some (w, []).
Proof.
  intros Hsup. induction n as [|n IH]; [done|].
  cbn [replicate run]. unfold step at 1. rewrite Hsup.
  cbn [mbind option_bind]. by rewrite IH.
Qed.

(** A failed attempt of the connection phase ends in the handler:
    one entry, then the sleep of five time units. *)
Lemma attempt_fails (a : failed_attempt) (w : World) :
  sup w = SupConnecting ->
  exists w1,
    run (attempt_events a) w =
      Some (w1, attempt_prints a ++
                [ActAddError Supervisor (main_error_entry (attempt_error a) w);
                 ActSleep Supervisor 5]) /\
    sup w1 = SupBackoff (clock w + 5) /\
    error_list w1 = push_error (main_error_entry (attempt_error a) w) (error_list w) /\
    tasks w1 = tasks w /\ heap w1 = heap w /\ telemetry_data w1 = telemetry_data w /\
    disk w1 = disk w /\ filename w1 = filename w /\ clock w1 = clock w.
Proof.
  intros Hsup. destruct a as [e|n e]; cbn [attempt_events attempt_prints attempt_error].
  - eexists. split.
    + cbn [run]. unfold step. rewrite Hsup. reflexivity.
    + done.
  - set (w0 := set_sup SupAwaitConnected w).
    eexists. split.
    + cbn [run]. unfold step at 1. rewrite Hsup. cbn [mbind option_bind].
      fold w0. rewrite run_app, (not_connected_states n w0) by done.
      cbn [mbind option_bind run]. unfold step. cbn [sup w0 set_sup].
      reflexivity.
    + done.
Qed.

(** The retry is not taken before the delay has passed. *)
Lemma supervisor_resume_step (u : Z) (w : World) :
  sup w = SupBackoff u ->
  step (EvResume Supervisor) w =
  if u <=? clock w then Some (set_sup SupConnecting w, [ActConnect]) else None.
Proof. intros Hsup. unfold step. by rewrite Hsup. Qed.

(** One round: the failed attempt, the delay, and [run()] entered again. *)
Lemma retry_round_run (a : failed_attempt * N) (w : World) :
  sup w = SupConnecting ->
  exists w',
    run (retry_round a) w =
      Some (w', attempt_prints a.1 ++
                [ActAddError Supervisor (main_error_entry (attempt_error a.1) w);
                 ActSleep Supervisor 5; ActConnect]) /\
    sup w' = SupConnecting /\
    error_list w' = push_error (main_error_entry (attempt_error a.1) w) (error_list w) /\
    tasks w' = tasks w /\ heap w' = heap w /\ telemetry_data w' = telemetry_data w /\
    disk w' = disk w /\ filename w' = filename w /\
    clock w' = clock w + 5 + Z.of_N a.2.
Proof.
  intros Hsup. destruct a as [a extra]. cbn [fst snd].
  destruct (attempt_fails a w Hsup) as (w1 & Hr1 & Hsup1 & He1 & Ht1 & Hh1 & Htd1 & Hd1 & Hf1 & Hc1).
  set (w2 := set_clock (clock w1 + Z.of_N (5 + extra)) w1).
  assert (Hs3 : step (EvResume Supervisor) w2 = Some (set_sup SupConnecting w2, [ActConnect])).
  { rewrite (supervisor_resume_step (clock w + 5) w2) by exact Hsup1.
    replace (clock w + 5 <=? clock w2) with true; [done|].
    symmetry. apply Z.leb_le. unfold w2. cbn [clock set_clock]. lia. }
  exists (set_sup SupConnecting w2). split.
  - unfold retry_round. cbn [fst snd]. rewrite run_app, Hr1. cbn [mbind option_bind run].
    change (step (EvTime (5 + extra)) w1) with (Some (w2, @nil action)).
    cbn [mbind option_bind]. rewrite Hs3. cbn [mbind option_bind].
    by rewrite <- app_assoc.
  - cbn. repeat split; try done. lia.
Qed.





End SupervisorRetry.

(** ** The log file *)

Section LogFile.

Lemma wrote_header_prints (lines : list string) (rest : list action) :
  wrote_header (map ActPrint lines ++ rest) = wrote_header rest.
Proof.
  unfold wrote_header. induction lines as [|line lines IH]; [done|].
  cbn [map app existsb orb]. exact IH.
Qed.

(** A tick whose I/O completes: the header goes in front of the row
    exactly when the file is absent. *)
Lemma tick_result_ok (fd : pydict) (w : World) :
  let row := writerow header (row_data fd) in
  tick_result IoOk fd w =
  (set_task LogToCsv (Sleeping (clock w + 1))
     (set_disk (Some (match disk w with
                      | Some file => file ++ [row]
                      | None => [map VStr header; row]
                      end))
        (set_heap (heap w ++ [fd]) w)),
   (match disk w with
    | Some _ => [ActWriteRow row]
    | None => [ActWriteHeader; ActWriteRow row]
    end) ++ [ActSleep (TaskOf LogToCsv) 1]).
Proof.
  unfold tick_result, write_csv. cbn [disk set_heap].
  by destruct (disk w).
Qed.

(** A tick whose I/O raises writes nothing. *)
Lemma tick_result_raise (e : string) (fd : pydict) (w : World) :
  tick_result (IoRaise e) fd w =
  (set_task LogToCsv (Sleeping (clock w + 1)) (set_heap (heap w ++ [fd]) w),
   [ActPrint (error_tag (TaskOf LogToCsv) +:+ e); ActSleep (TaskOf LogToCsv) 1]).
Proof. reflexivity. Qed.

(** While the file exists, a step appends data rows at most. *)
Lemma step_disk_exists (ev : event) (w w' : World) (acts : list action)
      (file : list csv_row) :
  disk w = Some file ->
  ev <> EvUnlink ->
  step ev w = Some (w', acts) ->
  exists rows,
    disk w' = Some (file ++ rows) /\
    Forall (fun row => row <> map VStr header) rows /\
    wrote_header acts = false.
Proof.
  intros Hd Hev Hs. step_inv Hs.
  all: try rewrite apply_item_frame.
  all: try (exists []; rewrite app_nil_r;
            cbn [disk set_sup set_task set_tasks set_disk set_heap set_clock
                 set_error_list add_error fst snd wrote_header existsb orb app];
            rewrite ?wrote_header_prints; by repeat split).
  all: cbn [disk set_heap] in *.
  all: try congruence.
  eexists [_].
  cbn [disk set_sup set_task set_tasks set_disk set_heap set_clock default id
       set_error_list add_error fst snd wrote_header existsb orb app].
  repeat split.
  - repeat f_equal. congruence.
  - constructor; [apply csv_row_not_header | constructor].
Qed.

Lemma wrote_header_app (a1 a2 : list action) :
  wrote_header (a1 ++ a2) = wrote_header a1 || wrote_header a2.
Proof. apply existsb_app. Qed.

(** As long as nobody removes the file, a run only appends data rows. *)
Lemma run_disk_exists (evs : list event) (w w' : World) (acts : list action)
      (file : list csv_row) :
  disk w = Some file ->
  EvUnlink ∉ evs ->
  run evs w = Some (w', acts) ->
  exists rows,
    disk w' = Some (file ++ rows) /\
    Forall (fun row => row <> map VStr header) rows /\
    wrote_header acts = false.
Proof.
  revert w acts file. induction evs as [|ev evs IH]; intros w acts file Hd Hev Hr.
  - apply run_nil_inv in Hr as [-> ->]. exists []. by rewrite app_nil_r.
  - apply run_cons_inv in Hr as (w1 & a1 & a2 & Hs & Hr & ->).
    apply not_elem_of_cons in Hev as [Hne Hev].
    destruct (step_disk_exists _ _ _ _ _ Hd (not_eq_sym Hne) Hs) as (rows1 & Hd1 & Hrows1 & Hh1).
    destruct (IH _ _ _ Hd1 Hev Hr) as (rows2 & Hd2 & Hrows2 & Hh2).
    exists (rows1 ++ rows2). rewrite app_assoc, wrote_header_app, Hh1, Hh2.
    repeat split; [done | by apply Forall_app].
Qed.

Lemma header_rows_data (file rows : list csv_row) :
  Forall (fun row => row <> header_row) rows ->
  header_rows (file ++ rows) = header_rows file.
Proof.
  intros Hrows. unfold header_rows. rewrite filter_app, length_app.
  replace (filter (fun row => row = header_row) rows) with (@nil csv_row);
    [cbn [length]; lia|].
  induction Hrows as [|row rows Hrow _ IH]; [done|].
  by rewrite filter_cons_False.
Qed.

(** While the file is absent, only a tick of [log_to_csv] creates
    it: with the header row and one data row. *)
Lemma step_disk_absent (ev : event) (w w' : World) (acts : list action) :
  disk w = None ->
  step ev w = Some (w', acts) ->
  disk w' = None \/
  exists row, row <> header_row /\ disk w' = Some [header_row; row].
Proof.
  intros Hd Hs. step_inv Hs.
  all: try rewrite apply_item_frame.
  all: cbn [disk set_sup set_task set_tasks set_disk set_heap set_clock default id
            set_error_list add_error fst snd app] in *.
  all: try (by left).
  all: try congruence.
  right. eexists. split; [apply csv_row_not_header | reflexivity].
Qed.

(** Whatever happens to the file, a step never leaves it with a
    second header row. *)
Lemma step_one_header (ev : event) (w w' : World) (acts : list action) :
  at_most_one_header (disk w) ->
  step ev w = Some (w', acts) ->
  at_most_one_header (disk w').
Proof.
  intros Hd Hs.
  assert (Hev : ev = EvUnlink \/ ev <> EvUnlink) by (destruct ev; (by left) || (by right)).
  destruct Hev as [->|Hev]; [by injection Hs as <- <-|].
  destruct (disk w) as [file|] eqn:Hfile.
  - destruct (step_disk_exists _ _ _ _ _ Hfile Hev Hs) as (rows & -> & Hrows & _).
    cbn [at_most_one_header] in *. by rewrite header_rows_data.
  - destruct (step_disk_absent _ _ _ _ Hfile Hs) as [->|(row & Hrow & ->)]; [done|].
    cbn [at_most_one_header]. unfold header_rows.
    rewrite filter_cons_True, filter_cons_False, filter_nil by done. done.
Qed.

Lemma run_one_header (evs : list event) (w w' : World) (acts : list action) :
  at_most_one_header (disk w) ->
  run evs w = Some (w', acts) ->
  at_most_one_header (disk w').
Proof.
  revert w acts. induction evs as [|ev evs IH]; intros w acts Hd Hr.
  - by apply run_nil_inv in Hr as [-> _].
  - apply run_cons_inv in Hr as (w1 & a1 & a2 & Hs & Hr & _).
    eapply IH; [|exact Hr]. by eapply step_one_header.
Qed.

End LogFile.

(** ** Snapshots, the checklist and complete rows *)

Section Snapshots.

(** The copy a consumer takes shows the Store as it is. *)
Lemma snapshot_view (w : World) :
  store_ok w ->
  exists td,
    copy (telemetry_data w) (heap w) = Some (length (heap w), heap w ++ [td]) /\
    forall k, view (heap w ++ [td]) (length (heap w)) k = field w k.
Proof.
  intros (td & r & hd & Htd & Hh & Hr & Hhd & Hsc). exists td. split.
  - unfold copy, alloc. by rewrite Htd.
  - intros k. unfold field, view. rewrite lookup_last, Htd. cbn [mbind option_bind].
    destruct (dict_get k td) as [[s|z|r']|] eqn:Hk; cbn [mbind option_bind]; try done.
    destruct (decide (k = "health")) as [->|Hne].
    + rewrite Hh in Hk. injection Hk as <-.
      by rewrite lookup_app_l by (by eapply lookup_lt_Some).
    + destruct (Hsc _ _ Hk Hne) as [? [=]].
Qed.

Lemma writers_disjoint (c1 c2 : Category) (k : string) :
  k ∈ category_fields c1 -> k ∈ category_fields c2 -> c1 = c2.
Proof.
  destruct c1, c2; try reflexivity; cbn [category_fields];
    rewrite !elem_of_cons, !elem_of_nil; intros H1 H2;
    exfalso; repeat (destruct H1 as [->|H1]; [|]); try done;
    repeat (destruct H2 as [H2|H2]; try discriminate H2); done.
Qed.

Lemma item_updates_fields (i : item) :
  (spec_item_updates i).*1 = category_fields (item_cat i).
Proof. by destruct i. Qed.

End Snapshots.

Section Checklist.

Lemma checklist_field (w : World) (d : pydict) :
  field w "health" = Some (Checklist d) -> checklist w = Some d.
Proof. unfold checklist. by intros ->. Qed.

Lemma seven_checks_health_dict (health : Health) : seven_checks (health_dict health).
Proof.
  split; [reflexivity|]. intros k. unfold dict_keys, health_names, health_literal.
  cbn. rewrite !elem_of_cons, !elem_of_nil. tauto.
Qed.

Lemma seven_checks_literal : seven_checks health_literal.
Proof. split; [reflexivity | done]. Qed.

Lemma health_update_only (k : string) (ev : event) (v : field_value) :
  event_update k ev = Some v ->
  k = "health" ->
  exists health, v = Checklist (health_dict health).
Proof.
  intros Hu ->. destruct ev as [| | | | | | |i| | | |]; try discriminate Hu.
  destruct i; cbn in Hu; try discriminate Hu. injection Hu as <-. eauto.
Qed.

Lemma latest_health_update (evs : list event) (v : field_value) :
  latest_update "health" evs = Some v ->
  exists health, v = Checklist (health_dict health).
Proof.
  unfold latest_update. intros Hl. apply last_Some_elem_of in Hl.
  apply list_elem_of_omap in Hl as (ev & _ & Hev).
  by eapply health_update_only.
Qed.

(** In every state of a run the checklist is the one of the module
    literal or the one built from the latest health item. *)
Lemma run_checklist (evs : list event) (t0 : Z) (file : option (list csv_row))
      (w : World) (acts : list action) :
  run evs (main t0 file).1 = Some (w, acts) ->
  checklist w = Some health_literal \/
  exists health, checklist w = Some (health_dict health).
Proof.
  intros Hr.
  destruct (run_store evs _ _ _ (load_module_ok t0 file) Hr) as [_ Hf].
  specialize (Hf "health").
  destruct (latest_update "health" evs) as [v|] eqn:Hl.
  - destruct (latest_health_update _ _ Hl) as [health ->].
    right. exists health. by apply checklist_field.
  - left. by apply checklist_field.
Qed.

End Checklist.

Section CompleteRows.

Lemma ok_fail_not_na (b : bool) : na_to_zero (ok_fail b) = ok_fail b.
Proof. by destruct b. Qed.

Lemma str_of_int_not_na (z : Z) : is_na (VStr (str_of_int z)) = false.
Proof.
  destruct (str_of_int_head z) as (c & rest & -> & Hc). by apply head_not_na.
Qed.

(** The row of a Store that holds the marker everywhere. *)
Lemma unavailable_row (ts : string) (r : nat) :
  csv_row_of ts (telemetry_literal r) health_literal =
  na_to_zero (VStr ts) :: replicate 22 (VInt 0).
Proof.
  rewrite csv_row_nodup.
  - vm_compute. reflexivity.
  - refine (bool_decide_unpack _ _). vm_compute. exact I.
Qed.

(** The row of a Store that holds text in every scalar a fetcher
    writes, and a checklist in the order a health item gives it. *)
Lemma written_row (ts lat lon alt abs_alt roll pitch yaw voltage battery
                   gps_fix satellites flight_mode armed rc_signal : string)
      (acc gyro mag glob home loc arm : value) (r n : nat) :
  csv_row_of ts
    (dict_set "health" (VDict n)
    (dict_set "rc_signal" (VStr rc_signal)
    (dict_set "armed" (VStr armed)
    (dict_set "flight_mode" (VStr flight_mode)
    (dict_set "satellites" (VStr satellites)
    (dict_set "gps_fix" (VStr gps_fix)
    (dict_set "battery" (VStr battery)
    (dict_set "voltage" (VStr voltage)
    (dict_set "yaw" (VStr yaw)
    (dict_set "pitch" (VStr pitch)
    (dict_set "roll" (VStr roll)
    (dict_set "abs_alt" (VStr abs_alt)
    (dict_set "alt" (VStr alt)
    (dict_set "lon" (VStr lon)
    (dict_set "lat" (VStr lat) (telemetry_literal r))))))))))))))))
    [("Accelerometer calibration", acc); ("Gyrometer calibration", gyro);
     ("Magnetometer calibration", mag); ("Global position", glob);
     ("Home position", home); ("Local position", loc); ("Armable", arm)] =
  [na_to_zero (VStr ts); na_to_zero (VStr lat); na_to_zero (VStr lon);
   na_to_zero (VStr alt); na_to_zero (VStr abs_alt); VInt 0;
   na_to_zero (VStr roll); na_to_zero (VStr pitch); na_to_zero (VStr yaw);
   na_to_zero (VStr voltage); na_to_zero (VStr battery);
   na_to_zero (VStr gps_fix); na_to_zero (VStr satellites);
   na_to_zero (VStr flight_mode); na_to_zero (VStr armed);
   na_to_zero (VStr rc_signal);
   na_to_zero acc; na_to_zero arm; na_to_zero glob; na_to_zero gyro;
   na_to_zero home; na_to_zero loc; na_to_zero mag].
Proof.
  rewrite csv_row_nodup.
  - vm_compute. reflexivity.
  - refine (bool_decide_unpack _ _). vm_compute. exact I.
Qed.

Lemma store_holds (k : string) (v : value) (w : World) (td : pydict) :
  heap w !! telemetry_data w = Some td ->
  heap (store k v w) !! telemetry_data (store k v w) = Some (dict_set k v td).
Proof.
  intros Htd. unfold store, setitem. cbn [heap telemetry_data set_heap].
  by rewrite list_lookup_alter_eq, Htd.
Qed.

Lemma store_length (k : string) (v : value) (w : World) :
  length (heap (store k v w)) = length (heap w).
Proof. apply length_alter. Qed.

Lemma fetch_rc_signal_item_store (rc : RcStatus) (w : World) :
  fetch_rc_signal_item rc w = store "rc_signal" (VStr (rc_text rc)) w.
Proof. unfold fetch_rc_signal_item, rc_text. by destruct (signal_strength_percent rc). Qed.

(** The objects of a fresh Store after one item of each category. *)
Lemma populate_store (pos : Position) (att : EulerAngle) (batt : Battery) (gps : GpsInfo)
      (mode : string) (armed : bool) (rc : RcStatus) (health : Health)
      (w : World) (r : nat) :
  heap w !! telemetry_data w = Some (telemetry_literal r) ->
  let w' := populate pos att batt gps mode armed rc health w in
  heap w' !! telemetry_data w' =
    Some (dict_set "health" (VDict (length (heap w)))
         (dict_set "rc_signal" (VStr (rc_text rc))
         (dict_set "armed" (VStr (if armed then "Yes" else "No"))
         (dict_set "flight_mode" (VStr (PyStr.replace "FLIGHT_MODE_" "" mode))
         (dict_set "satellites" (VStr (str_of_int (num_satellites gps)))
         (dict_set "gps_fix" (VStr (PyStr.replace "FIX_TYPE_" "" (fix_type gps)))
         (dict_set "battery" (VStr (format_f 1 (remaining_percent batt)))
         (dict_set "voltage" (VStr (format_f 2 (voltage_v batt)))
         (dict_set "yaw" (VStr (format_f 2 (yaw_deg att)))
         (dict_set "pitch" (VStr (format_f 2 (pitch_deg att)))
         (dict_set "roll" (VStr (format_f 2 (roll_deg att)))
         (dict_set "abs_alt" (VStr (format_f 2 (absolute_altitude_m pos)))
         (dict_set "alt" (VStr (format_f 2 (relative_altitude_m pos)))
         (dict_set "lon" (VStr (format_f 6 (longitude_deg pos)))
         (dict_set "lat" (VStr (format_f 6 (latitude_deg pos)))
                   (telemetry_literal r)))))))))))))))) /\
  heap w' !! length (heap w) = Some (health_dict health) /\
  clock w' = clock w /\ disk w' = disk w /\ tasks w' = tasks w.
Proof.
  intros Htd. pose proof (lookup_lt_Some _ _ _ Htd) as Hlt.
  unfold populate. rewrite fetch_rc_signal_item_store. cbv zeta.
  set (w7 := store "rc_signal" _ _).
  assert (H7 : heap w7 !! telemetry_data w7 = Some
         (dict_set "rc_signal" (VStr (rc_text rc))
         (dict_set "armed" (VStr (if armed then "Yes" else "No"))
         (dict_set "flight_mode" (VStr (PyStr.replace "FLIGHT_MODE_" "" mode))
         (dict_set "satellites" (VStr (str_of_int (num_satellites gps)))
         (dict_set "gps_fix" (VStr (PyStr.replace "FIX_TYPE_" "" (fix_type gps)))
         (dict_set "battery" (VStr (format_f 1 (remaining_percent batt)))
         (dict_set "voltage" (VStr (format_f 2 (voltage_v batt)))
         (dict_set "yaw" (VStr (format_f 2 (yaw_deg att)))
         (dict_set "pitch" (VStr (format_f 2 (pitch_deg att)))
         (dict_set "roll" (VStr (format_f 2 (roll_deg att)))
         (dict_set "abs_alt" (VStr (format_f 2 (absolute_altitude_m pos)))
         (dict_set "alt" (VStr (format_f 2 (relative_altitude_m pos)))
         (dict_set "lon" (VStr (format_f 6 (longitude_deg pos)))
         (dict_set "lat" (VStr (format_f 6 (latitude_deg pos)))
                   (telemetry_literal r)))))))))))))))).
  { unfold w7. repeat apply store_holds. exact Htd. }
  assert (L7 : length (heap w7) = length (heap w)).
  { unfold w7, fetch_armed_status_item, fetch_flight_mode_item, fetch_gps_item,
      fetch_battery_item, fetch_attitude_item, fetch_position_item. cbv zeta.
    by rewrite !store_length. }
  assert (F7 : clock w7 = clock w /\ disk w7 = disk w /\ tasks w7 = tasks w) by done.
  clearbody w7. unfold fetch_health_item, alloc. rewrite L7.
  split; [|split].
  - apply store_holds. cbn [heap telemetry_data set_heap]. by apply lookup_app_l_Some.
  - unfold store, setitem. cbn [heap telemetry_data set_heap].
    pose proof (lookup_lt_Some _ _ _ H7) as Hlt7.
    rewrite list_lookup_alter_ne by lia. rewrite <- L7. apply lookup_last.
  - exact F7.
Qed.

End CompleteRows.

(** * Properties stated by the specification *)

(** ** Error log *)

(** C3. After any sequence of [add_error] calls the error log holds at
    most [MAX_ERRORS_DISPLAYED = 5] entries, it is the last five of all
    entries in insertion order (the oldest is dropped first), and when
    five or more calls were made, the slice the display reads is
    exactly the entries of the five most recent calls, oldest first.
    The bound also holds in every state a run of the program reaches. *)
Theorem error_log_bounded_fifo (w : World) (calls : list (Z * string)) :
  (length (error_list w) <= MAX_ERRORS_DISPLAYED)%nat ->
  (length (error_list (record_calls calls w)) <= MAX_ERRORS_DISPLAYED)%nat /\
  error_list (record_calls calls w) =
    PyStr.last_n MAX_ERRORS_DISPLAYED (error_list w ++ (entry_of <$> calls)) /\
  (forall older newest,
      calls = older ++ newest ->
      length newest = MAX_ERRORS_DISPLAYED ->
      PyStr.last_n MAX_ERRORS_DISPLAYED (error_list (record_calls calls w))
      = entry_of <$> newest) /\
  (forall evs w' acts,
      run evs w = Some (w', acts) ->
      (length (error_list w') <= MAX_ERRORS_DISPLAYED)%nat).
Proof.
  intros Hl.
  assert (Heq : error_list (record_calls calls w) =
                PyStr.last_n MAX_ERRORS_DISPLAYED (error_list w ++ (entry_of <$> calls))).
  { rewrite record_calls_error_list. rewrite <- (fold_push_error _ _ Hl).
    clear Hl. generalize (error_list w).
    induction calls as [|c calls IH]; intros l; [done|]. cbn [foldl fmap list_fmap]. apply IH. }
  repeat split.
  - rewrite Heq. apply last_n_length.
  - exact Heq.
  - intros older newest -> Hn. rewrite Heq.
    rewrite last_n_short by apply last_n_length.
    rewrite fmap_app, app_assoc. apply last_n_app. by rewrite length_fmap.
  - intros evs w' acts. by apply run_error_bound.
Qed.

Lemma error_log_bounded_fifo_witness :
  (length (error_list (load_module sample_start None)) <= MAX_ERRORS_DISPLAYED)%nat /\
  error_list (record_calls sample_calls (load_module sample_start None)) =
    ["[00:00:12] e3"; "[00:00:13] e4"; "[00:00:14] e5"; "[00:00:15] e6"; "[00:00:16] e7"].
Proof.
  split; [cbn; lia|].
  destruct (error_log_bounded_fifo (load_module sample_start None) sample_calls)
    as (_ & Heq & _); [cbn; lia|].
  rewrite Heq. reflexivity.
Defined.

(** ** Stream fetchers *)

(** C1. Once the tasks run, an exception raised by the subscription of
    fetcher [c] is handled in that fetcher's own loop: the step records
    exactly one error entry, tagged with the category, and puts the
    fetcher to sleep for one time unit; the supervisor, every other
    task, the Store and the log file are untouched; the fetcher cannot
    be resumed before one time unit has passed and re-subscribes when
    it is. In every run, however the other tasks are scheduled in
    between, the entries with the tag of [c] and its sleeps of one unit
    are as many as the failures of its subscription; and [n]
    consecutive failures of a newly created fetcher give [n + 1]
    subscriptions and [n] error entries. The tags of two categories
    differ. *)
Theorem fetcher_failures_contained (c : Category) (w : World) :
  sup w = SupRunning ->
  (forall e,
      tasks w (Fetcher c) = Streaming ->
      exists w1,
        step (EvStreamRaise c e) w =
          Some (w1, [ActAddError (TaskOf (Fetcher c))
                       (error_entry (error_tag (TaskOf (Fetcher c)) +:+ e) w);
                     ActSleep (TaskOf (Fetcher c)) 1]) /\
        error_list w1 =
          push_error (error_entry (error_tag (TaskOf (Fetcher c)) +:+ e) w) (error_list w) /\
        tasks w1 (Fetcher c) = Sleeping (clock w + 1) /\
        (forall t, t <> Fetcher c -> tasks w1 t = tasks w t) /\
        sup w1 = SupRunning /\ heap w1 = heap w /\ disk w1 = disk w /\
        (forall dt : N,
            step (EvResume (TaskOf (Fetcher c))) (set_clock (clock w + Z.of_N dt) w1) =
            if 1 <=? Z.of_N dt
            then Some (set_task (Fetcher c) Streaming (set_clock (clock w + Z.of_N dt) w1),
                       [ActSubscribe c])
            else None)) /\
  (forall evs w' acts,
      run evs w = Some (w', acts) ->
      sup w' = SupRunning /\
      length (errors_of (TaskOf (Fetcher c)) acts) = length (failures_of c evs) /\
      Forall (tagged (TaskOf (Fetcher c))) (errors_of (TaskOf (Fetcher c)) acts) /\
      sleeps_of (TaskOf (Fetcher c)) acts = replicate (length (failures_of c evs)) 1 /\
      (subscriptions c acts + streaming (tasks w (Fetcher c)) =
       length (failures_of c evs) + stops_of c evs + streaming (tasks w' (Fetcher c)))%nat) /\
  (forall fails,
      tasks w (Fetcher c) = Created ->
      exists w' acts,
        run (failure_script c fails) w = Some (w', acts) /\
        subscriptions c acts = S (length fails) /\
        length (errors_of (TaskOf (Fetcher c)) acts) = length fails /\
        Forall (tagged (TaskOf (Fetcher c))) (errors_of (TaskOf (Fetcher c)) acts) /\
        sleeps_of (TaskOf (Fetcher c)) acts = replicate (length fails) 1 /\
        tasks w' (Fetcher c) = Streaming /\
        sup w' = SupRunning /\
        (forall t, t <> Fetcher c -> tasks w' t = tasks w t) /\
        heap w' = heap w /\ disk w' = disk w) /\
  (forall c', error_tag (TaskOf (Fetcher c')) = error_tag (TaskOf (Fetcher c)) -> c' = c).
Proof.
  intros Hsup. split; [|split; [|split]]; [| | |by destruct c, c'].
  - intros e Hst.
    destruct (fetcher_failure_step c e w Hst)
      as (w1 & Hs & He & Hst1 & Hfr & Hsup1 & Hh & Hd & Hc).
    exists w1. repeat split; try done; [congruence|].
    intros dt. rewrite (fetcher_resume_step c (clock w + 1)) by exact Hst1.
    cbn [clock set_clock].
    destruct (Z.leb_spec 1 (Z.of_N dt)), (Z.leb_spec (clock w + 1) (clock w + Z.of_N dt));
      (reflexivity || lia).
  - intros evs w' acts Hr.
    destruct (run_fetcher_accounting c evs w w' acts Hsup Hr) as (? & ? & ? & ? & ?).
    by repeat split.
  - intros fails Hst.
    set (w0 := set_task (Fetcher c) Streaming w).
    assert (Hst0 : tasks w0 (Fetcher c) = Streaming) by (cbn; by rewrite decide_True).
    destruct (failure_rounds c fails w0 Hst0)
      as (w' & acts & Hr & Hst' & Hfr & Hsup' & Hh & Hd & Hfl & Hstop).
    assert (Hrun : run (failure_script c fails) w = Some (w', ActSubscribe c :: acts)).
    { unfold failure_script. cbn [run]. unfold step. rewrite Hst. cbn [runnable].
      cbn [mbind option_bind]. fold w0. rewrite Hr. reflexivity. }
    exists w', (ActSubscribe c :: acts). split; [exact Hrun|].
    destruct (run_fetcher_accounting c _ w w' _ Hsup Hrun) as (Hs1 & Hn & He & Ht & Hz).
    assert (Hfails : length (failures_of c (failure_script c fails)) = length fails).
    { unfold failure_script. rewrite failures_of_cons, Hfl. cbn. by rewrite length_fmap. }
    assert (Hstops : stops_of c (failure_script c fails) = 0%nat).
    { unfold failure_script. by rewrite stops_of_cons, Hstop. }
    rewrite Hfails in *. rewrite Hstops, Hst, Hst' in Hn. cbn [streaming] in Hn.
    repeat split; try done; try lia.
    intros t Ht'. rewrite Hfr by done. cbn. by rewrite decide_False.
Qed.

Lemma fetcher_failures_contained_witness :
  sup sample_launched = SupRunning /\
  tasks sample_launched (Fetcher CatGps) = Created /\
  exists w' acts,
    run (failure_script CatGps [("link down", 0%N); ("decode", 2%N); ("eof", 0%N)])
        sample_launched = Some (w', acts) /\
    subscriptions CatGps acts = 4%nat /\
    length (errors_of (TaskOf (Fetcher CatGps)) acts) = 3%nat.
Proof.
  split; [reflexivity|]. split; [reflexivity|].
  destruct (fetcher_failures_contained CatGps sample_launched eq_refl) as (_ & _ & Hn & _).
  destruct (Hn [("link down", 0%N); ("decode", 2%N); ("eof", 0%N)] eq_refl)
    as (w' & acts & Hr & Hs & He & _).
  by exists w', acts.
Defined.

(** ** Supervisor *)



(** C7, as amended. A restart of the session creates nothing anew. The
    Store, the error log and the log file name are module-level
    objects made once when the script is loaded: the round that
    restarts the session (failed attempt, delay, [run()] entered again)
    leaves the Store object and every field of it as they were, keeps
    the entries of the error log and adds its own, and keeps the file
    name and the file; and in every state of every run the file name
    is the one made from the time the script was loaded. *)
Theorem session_restart_keeps_context (w : World) (a : failed_attempt * N) :
  sup w = SupConnecting ->
  (exists w' acts,
      run (retry_round a) w = Some (w', acts) /\
      sup w' = SupConnecting /\
      telemetry_data w' = telemetry_data w /\
      heap w' = heap w /\
      (forall k, field w' k = field w k) /\
      error_list w' = push_error (main_error_entry (attempt_error a.1) w) (error_list w) /\
      filename w' = filename w /\
      disk w' = disk w) /\
  (forall t0 file evs w' acts,
      run evs (main t0 file).1 = Some (w', acts) ->
      filename w' = log_filename t0 /\ telemetry_data w' = 0%nat).
Proof.
  intros Hsup. split.
  - destruct (retry_round_run a w Hsup)
      as (w' & Hr & Hs' & He & Ht & Hh & Htd & Hd & Hf & Hc).
    eexists w', _. split; [exact Hr|]. repeat split; try done.
    intros k. unfold field. by rewrite Hh, Htd.
  - intros t0 file evs w' acts Hr.
    destruct (run_globals _ _ _ _ Hr) as [Htd Hf]. by rewrite Hf, Htd.
Qed.

Lemma session_restart_keeps_context_witness :
  sup (main sample_start None).1 = SupConnecting /\
  exists w' acts,
    run (retry_round (ConnectRaises "no device", 0%N)) (main sample_start None).1
      = Some (w', acts) /\
    error_list w' = ["[15:30:45] Main connection error: no device"] /\
    filename w' = "flight_logs/telemetry_log_20251103_153045.csv".
Proof.
  split; [reflexivity|].
  destruct (session_restart_keeps_context (main sample_start None).1
              (ConnectRaises "no device", 0%N) eq_refl)
    as ((w' & acts & Hr & _ & _ & _ & _ & He & Hf & _) & _).
  exists w', acts. split; [exact Hr|]. rewrite He, Hf. by vm_compute.
Defined.

(** C7, as stated, fails: after one failed connection the session
    restarts five seconds later with the entry of that failure in the
    error log and with the file name still made from the time the
    script was loaded, not from the time the new session starts. *)
Lemma session_restart_not_fresh :
  exists w acts,
    run sample_restart (main sample_start None).1 = Some (w, acts) /\
    sup w = SupConnecting /\
    clock w = sample_start + 5 /\
    error_list w <> [] /\
    filename w <> log_filename (clock w) /\
    ~ fresh_context (clock w) w.
Proof.
  eexists _, _. split; [vm_compute; reflexivity|].
  split; [reflexivity|]. split; [reflexivity|].
  split; [by vm_compute|]. split; [by vm_compute|].
  intros (_ & He & _). by vm_compute in He.
Qed.

(** ** Per-category transforms *)




(** ** Health checklist *)

(** C4. A health item replaces the checklist as a whole: after it the
    Store's checklist is the dictionary built from the item alone,
    whatever the checklist was before, so a second item leaves nothing
    of the first; every other field is unchanged. That dictionary
    holds exactly the seven named checks, each [OK] or [FAIL] from its
    flag. On a fresh Store the item with [is_global_position_ok] false
    and every other flag true gives [FAIL] for the global position and
    [OK] for the six others. In every state of every run the checklist
    holds exactly the seven named checks. *)
Theorem health_update_replaces_checklist (w : World) (health health' : Health) :
  store_ok w ->
  checklist (fetch_health_item health w) = Some (health_dict health) /\
  checklist (fetch_health_item health' (fetch_health_item health w))
    = Some (health_dict health') /\
  (forall k, k <> "health" -> field (fetch_health_item health w) k = field w k) /\
  seven_checks (health_dict health) /\
  dict_get "Accelerometer calibration" (health_dict health)
    = Some (ok_fail (is_accelerometer_calibration_ok health)) /\
  dict_get "Armable" (health_dict health) = Some (ok_fail (is_armable health)) /\
  dict_get "Global position" (health_dict health)
    = Some (ok_fail (is_global_position_ok health)) /\
  dict_get "Gyrometer calibration" (health_dict health)
    = Some (ok_fail (is_gyrometer_calibration_ok health)) /\
  dict_get "Home position" (health_dict health)
    = Some (ok_fail (is_home_position_ok health)) /\
  dict_get "Local position" (health_dict health)
    = Some (ok_fail (is_local_position_ok health)) /\
  dict_get "Magnetometer calibration" (health_dict health)
    = Some (ok_fail (is_magnetometer_calibration_ok health)) /\
  (forall t0 file,
      checklist (fetch_health_item sample_health (load_module t0 file)) =
      Some [("Accelerometer calibration", VStr "OK"); ("Gyrometer calibration", VStr "OK");
            ("Magnetometer calibration", VStr "OK"); ("Global position", VStr "FAIL");
            ("Home position", VStr "OK"); ("Local position", VStr "OK");
            ("Armable", VStr "OK")]) /\
  (forall t0 file evs w' acts,
      run evs (main t0 file).1 = Some (w', acts) ->
      exists d, checklist w' = Some d /\ seven_checks d).
Proof.
  intros Hok.
  assert (Hrep : forall w0 h, store_ok w0 ->
                   checklist (fetch_health_item h w0) = Some (health_dict h)).
  { intros w0 h Hok0. apply checklist_field. by rewrite field_fetch_health. }
  repeat split; try reflexivity.
  - by apply Hrep.
  - apply Hrep. by apply store_ok_fetch_health.
  - intros k Hk. rewrite field_fetch_health by done.
    destruct (String.eqb_spec "health" k); [congruence | done].
  - apply seven_checks_health_dict.
  - apply seven_checks_health_dict.
  - intros t0 file evs w' acts Hr.
    destruct (run_checklist _ _ _ _ _ Hr) as [Hc|[h Hc]]; eexists; (split; [exact Hc|]).
    + apply seven_checks_literal.
    + apply seven_checks_health_dict.
Qed.

Lemma health_update_replaces_checklist_witness :
  store_ok (load_module sample_start None) /\
  checklist (fetch_health_item sample_health_2
               (fetch_health_item sample_health (load_module sample_start None)))
    = Some [("Accelerometer calibration", VStr "OK"); ("Gyrometer calibration", VStr "FAIL");
            ("Magnetometer calibration", VStr "FAIL"); ("Global position", VStr "OK");
            ("Home position", VStr "FAIL"); ("Local position", VStr "FAIL");
            ("Armable", VStr "FAIL")].
Proof.
  split; [apply load_module_ok|].
  destruct (health_update_replaces_checklist (load_module sample_start None)
              sample_health sample_health_2 (load_module_ok sample_start None))
    as (_ & H2 & _).
  exact H2.
Defined.

(** ** Snapshots of the Store *)

(** C2. No field is written by two categories, and after any run of
    the scheduler the copy a consumer takes of the Store shows, for
    every field, the value of the most recent update the run has
    completed for that field, or the value the field had before the
    run when there was none. An item is applied in one step, so all
    fields of an update are in the copy or none is. *)
Theorem snapshot_reflects_latest_updates (evs : list event) (w w' : World)
        (acts : list action) :
  store_ok w ->
  run evs w = Some (w', acts) ->
  (forall c1 c2 k, k ∈ category_fields c1 -> k ∈ category_fields c2 -> c1 = c2) /\
  (forall i, (spec_item_updates i).*1 = category_fields (item_cat i)) /\
  exists snap h,
    copy (telemetry_data w') (heap w') = Some (snap, h) /\
    forall k,
      view h snap k = match latest_update k evs with
                      | Some v => Some v
                      | None => field w k
                      end.
Proof.
  intros Hok Hr. split; [exact writers_disjoint|]. split; [exact item_updates_fields|].
  destruct (run_store _ _ _ _ Hok Hr) as [Hok' Hf].
  destruct (snapshot_view w' Hok') as (td & Hcopy & Hview).
  eexists _, _. split; [exact Hcopy|].
  intros k. by rewrite Hview, Hf.
Qed.

Lemma snapshot_reflects_latest_updates_witness :
  store_ok sample_launched /\
  exists w' acts snap h,
    run sample_updates sample_launched = Some (w', acts) /\
    copy (telemetry_data w') (heap w') = Some (snap, h) /\
    view h snap "lat" = Some (Scalar (VStr "1.000000")) /\
    view h snap "gps_fix" = Some (Scalar (VStr "FIX_3D")) /\
    view h snap "roll" = Some (Scalar (VStr "N/A")).
Proof.
  assert (Hok : store_ok sample_launched) by exact (load_module_ok sample_start None).
  split; [exact Hok|].
  destruct (run sample_updates sample_launched) as [[w' acts]|] eqn:Hr;
    [|vm_compute in Hr; discriminate Hr].
  destruct (snapshot_reflects_latest_updates sample_updates sample_launched w' acts Hok Hr)
    as (_ & _ & snap & h & Hcopy & Hview).
  exists w', acts, snap, h. split; [reflexivity|]. split; [exact Hcopy|].
  rewrite !Hview. vm_compute. repeat split; reflexivity.
Defined.

(** ** Persistence *)

(** C5. A tick of [log_to_csv] on a Store that holds the marker in
    every field emits the row with the timestamp in its first column
    and the integer [0] in each of the 22 others. Whatever the Store
    holds, the tick changes no object that existed before it: it works
    on a new dictionary, so the Store reads the same afterwards, marker
    included. On a Store each fetcher has written into, the row holds
    the texts the fetchers formatted: latitude and longitude with six
    fraction digits, altitudes, angles and voltage with two, battery
    and RC signal with one; a finite float formatted with [n > 0]
    fraction digits ends in a point and [n] digits. *)
Theorem serialization_substitutes_zero (w : World) (io : io_result) :
  store_ok w ->
  (exists w' acts,
      log_to_csv_tick io w = Some (w', acts) /\
      telemetry_data w' = telemetry_data w /\
      (forall r d, heap w !! r = Some d -> heap w' !! r = Some d) /\
      (forall k, field w' k = field w k)) /\
  (forall r,
      heap w !! telemetry_data w = Some (telemetry_literal r) ->
      heap w !! r = Some health_literal ->
      exists w' acts,
        log_to_csv_tick IoOk w = Some (w', acts) /\
        emitted_row acts = Some (VStr (isoformat (clock w)) :: replicate 22 (VInt 0))) /\
  (forall r pos att batt gps mode armed rc health,
      heap w !! telemetry_data w = Some (telemetry_literal r) ->
      exists w' acts,
        log_to_csv_tick IoOk (populate pos att batt gps mode armed rc health w)
          = Some (w', acts) /\
        emitted_row acts =
          Some [VStr (isoformat (clock w));
                VStr (format_f 6 (latitude_deg pos));
                VStr (format_f 6 (longitude_deg pos));
                VStr (format_f 2 (relative_altitude_m pos));
                VStr (format_f 2 (absolute_altitude_m pos));
                VInt 0;
                VStr (format_f 2 (roll_deg att));
                VStr (format_f 2 (pitch_deg att));
                VStr (format_f 2 (yaw_deg att));
                VStr (format_f 2 (voltage_v batt));
                VStr (format_f 1 (remaining_percent batt));
                na_to_zero (VStr (PyStr.replace "FIX_TYPE_" "" (fix_type gps)));
                VStr (str_of_int (num_satellites gps));
                na_to_zero (VStr (PyStr.replace "FLIGHT_MODE_" "" mode));
                VStr (if armed then "Yes" else "No");
                na_to_zero (VStr (rc_text rc));
                ok_fail (is_accelerometer_calibration_ok health);
                ok_fail (is_armable health);
                ok_fail (is_global_position_ok health);
                ok_fail (is_gyrometer_calibration_ok health);
                ok_fail (is_home_position_ok health);
                ok_fail (is_local_position_ok health);
                ok_fail (is_magnetometer_calibration_ok health)]) /\
  (forall n neg m e,
      exists int frac,
        format_f (S n) (FFinite neg m e) = int +:+ "." +:+ frac /\
        String.length frac = S n).
Proof.
  intros Hok. split; [|split; [|split]].
  - destruct Hok as (td & r & hd & Htd & Hh & Hr & Hhd & Hsc).
    exists (tick_result io (flat_dict (isoformat (clock w)) td hd) w).1,
           (tick_result io (flat_dict (isoformat (clock w)) td hd) w).2.
    split; [rewrite <- surjective_pairing; by apply (log_tick_ok io w td hd r)|].
    assert (Hext : forall io', heap (tick_result io' (flat_dict (isoformat (clock w)) td hd) w).1
                   = heap w ++ [flat_dict (isoformat (clock w)) td hd]).
    { intros [|e]; [rewrite tick_result_ok | rewrite tick_result_raise]; reflexivity. }
    assert (Htdr : forall io',
               telemetry_data (tick_result io' (flat_dict (isoformat (clock w)) td hd) w).1
               = telemetry_data w).
    { intros [|e]; [rewrite tick_result_ok | rewrite tick_result_raise]; reflexivity. }
    split; [apply Htdr|]. split.
    + intros r0 d Hd. rewrite Hext. by apply lookup_app_l_Some.
    + eapply store_extends; [by exists td, r, hd | apply Htdr | apply Hext].
  - intros r Htd Hhd.
    exists (tick_result IoOk (flat_dict (isoformat (clock w))
                                (telemetry_literal r) health_literal) w).1,
           (tick_result IoOk (flat_dict (isoformat (clock w))
                                (telemetry_literal r) health_literal) w).2.
    split; [rewrite <- surjective_pairing; by apply (log_tick_ok IoOk w _ _ r)|].
    rewrite tick_result_ok. cbn [snd]. fold (csv_row_of (isoformat (clock w))
                                               (telemetry_literal r) health_literal).
    rewrite unavailable_row, na_to_zero_id by apply isoformat_not_na.
    by destruct (disk w).
  - intros r pos att batt gps mode armed rc health Htd.
    destruct (populate_store pos att batt gps mode armed rc health w r Htd)
      as (Htd' & Hhd' & Hc & _).
    set (w8 := populate pos att batt gps mode armed rc health w) in *.
    pose proof (log_tick_ok IoOk w8 _ _ _ Htd' (dict_get_set_same _ _ _) Hhd') as Htick.
    match type of Htick with _ = Some ?res => exists res.1, res.2 end.
    split; [rewrite <- surjective_pairing; exact Htick|]. clear Htick.
    rewrite tick_result_ok. cbn [snd].
      match goal with
      | |- context [writerow header (row_data (flat_dict ?ts ?td ?hd))] =>
          fold (csv_row_of ts td hd)
      end.
      unfold health_dict. rewrite written_row, Hc.
      rewrite !ok_fail_not_na.
      rewrite !(na_to_zero_id (VStr (format_f _ _))) by apply format_f_not_na.
      rewrite (na_to_zero_id (VStr (isoformat _))) by apply isoformat_not_na.
      rewrite (na_to_zero_id (VStr (str_of_int _))) by apply str_of_int_not_na.
      rewrite (na_to_zero_id (VStr (if armed then _ else _))) by (by destruct armed).
      by destruct (disk w8).
  - intros n neg m e. apply format_f_fraction.
Qed.

Lemma serialization_substitutes_zero_witness :
  store_ok (load_module sample_start None) /\
  exists w' acts,
    log_to_csv_tick IoOk (load_module sample_start None) = Some (w', acts) /\
    emitted_row acts = Some (VStr "2025-11-03T15:30:45" :: replicate 22 (VInt 0)) /\
    field w' "lat" = Some (Scalar (VStr "N/A")).
Proof.
  assert (Hok : store_ok (load_module sample_start None)) by apply load_module_ok.
  split; [exact Hok|].
  destruct (serialization_substitutes_zero (load_module sample_start None) IoOk Hok)
    as ((w' & acts & Ht & _ & _ & Hf) & Hna & _).
  destruct (Hna 1%nat eq_refl eq_refl) as (w2 & acts2 & Ht2 & Hrow).
  rewrite Ht in Ht2. injection Ht2 as <- <-.
  exists w', acts. split; [exact Ht|]. split; [exact Hrow|].
  rewrite Hf. reflexivity.
Defined.

(** C9. While the log file exists, nothing the program does writes a
    header row into it: a run without a removal of the file leaves the
    file as it was with data rows appended, none of which is the header
    row, and never calls [writeheader]. And whatever happens to the
    file, removals included, a file with at most one header row never
    comes to hold a second. *)
Theorem existing_log_gets_no_second_header (evs : list event) (w w' : World)
        (acts : list action) (file : list csv_row) :
  disk w = Some file ->
  run evs w = Some (w', acts) ->
  (EvUnlink ∉ evs ->
   exists rows,
     disk w' = Some (file ++ rows) /\
     Forall (fun row => row <> header_row) rows /\
     wrote_header acts = false /\
     header_rows (file ++ rows) = header_rows file) /\
  ((header_rows file <= 1)%nat -> at_most_one_header (disk w')).
Proof.
  intros Hd Hr. split.
  - intros Hev.
    destruct (run_disk_exists _ _ _ _ _ Hd Hev Hr) as (rows & Hd' & Hrows & Hh).
    exists rows. repeat split; try done. by apply header_rows_data.
  - intros Hone. eapply run_one_header; [|exact Hr]. by rewrite Hd.
Qed.

Lemma existing_log_gets_no_second_header_witness :
  disk sample_session = Some sample_file /\
  exists w' acts rows,
    run sample_ticks sample_session
      = Some (w', acts) /\
    disk w' = Some (sample_file ++ rows) /\
    wrote_header acts = false /\
    header_rows (sample_file ++ rows) = 1%nat.
Proof.
  split; [reflexivity|].
  destruct (run sample_ticks sample_session)
    as [[w' acts]|] eqn:Hr; [|vm_compute in Hr; discriminate Hr].
  destruct (existing_log_gets_no_second_header sample_ticks sample_session w' acts
              sample_file eq_refl Hr)
    as [Hrows _].
  destruct Hrows as (rows & Hd & _ & Hw & Hh).
  { vm_compute. intros Hin. repeat (apply elem_of_cons in Hin as [Hin|Hin]; [discriminate Hin|]).
    by apply elem_of_nil in Hin. }
  exists w', acts, rows. split; [reflexivity|]. split; [exact Hd|].
  split; [exact Hw|]. by rewrite Hh.
Defined.

(** C10. Every tick of [log_to_csv] decides about the header by the
    file as it is at that tick: a tick whose writing goes through
    calls [writeheader] exactly when the file is absent, the file then
    being the header row and the data row; when the file is there it
    appends the data row alone; a tick whose I/O raises writes
    nothing. So after the file has been removed in the middle of a
    session, the next tick makes it anew, header first. On every state
    of the program the tick completes. *)
Theorem header_rechecked_every_tick (w : World) :
  store_ok w ->
  (exists w' acts row,
      log_to_csv_tick IoOk w = Some (w', acts) /\
      emitted_row acts = Some row /\
      row <> header_row /\
      (wrote_header acts = true <-> disk w = None) /\
      disk w' = Some (match disk w with
                      | Some file => file ++ [row]
                      | None => [header_row; row]
                      end)) /\
  (forall e,
      exists w' acts,
        log_to_csv_tick (IoRaise e) w = Some (w', acts) /\
        disk w' = disk w /\ wrote_header acts = false /\ emitted_row acts = None) /\
  (runnable (tasks w LogToCsv) (clock w) = true ->
   exists w' acts row,
     run [EvUnlink; EvLog IoOk] w = Some (w', acts) /\
     wrote_header acts = true /\
     disk w' = Some [header_row; row] /\ row <> header_row).
Proof.
  intros (td & r & hd & Htd & Hh & Hr & Hhd & Hsc).
  pose proof (log_tick_ok IoOk w td hd r Htd Hh Hhd) as Hok.
  rewrite tick_result_ok in Hok.
  split; [|split].
  - eexists _, _, _. split; [exact Hok|].
    fold (csv_row_of (isoformat (clock w)) td hd).
    destruct (disk w) as [file|]; repeat split; try done;
      apply csv_row_not_header.
  - intros e. pose proof (log_tick_ok (IoRaise e) w td hd r Htd Hh Hhd) as Hraise.
    rewrite tick_result_raise in Hraise. by eexists _, _.
  - intros Hrun.
    pose proof (log_tick_ok IoOk (set_disk None w) td hd r Htd Hh Hhd) as Hok'.
    rewrite tick_result_ok in Hok'. cbn [disk set_disk] in Hok'.
    eexists _, _, _. split.
    + cbn [run step mbind option_bind]. cbn [tasks set_disk clock]. rewrite Hrun.
      rewrite Hok'. reflexivity.
    + repeat split. apply csv_row_not_header.
Qed.

Lemma header_rechecked_every_tick_witness :
  store_ok sample_session /\
  runnable (tasks sample_session LogToCsv)
           (clock sample_session) = true /\
  exists w' acts row,
    run [EvUnlink; EvLog IoOk] sample_session
      = Some (w', acts) /\
    wrote_header acts = true /\
    disk w' = Some [header_row; row].
Proof.
  assert (Hok : store_ok sample_session)
    by exact (load_module_ok sample_start (Some sample_file)).
  split; [exact Hok|]. split; [reflexivity|].
  destruct (header_rechecked_every_tick sample_session Hok) as (_ & _ & Hun).
  destruct (Hun eq_refl) as (w' & acts & row & Hr & Hh & Hd & _).
  by exists w', acts, row.
Defined.
(** * Further properties of the code *)

(** ** The layout of the Store *)

Section Schema.

Lemma dict_keys_set_present (k : string) (v : value) (d : pydict) :
  k ∈ dict_keys d -> dict_keys (dict_set k v d) = dict_keys d.
Proof.
  unfold dict_keys. induction d as [|[k' v'] d IH]; intros Hk; [by apply elem_of_nil in Hk|].
  cbn [dict_set]. destruct (String.eqb_spec k' k) as [->|Hne]; [done|].
  cbn. f_equal. apply IH. apply elem_of_cons in Hk as [Hk|Hk]; [cbn in Hk; congruence | done].
Qed.

Lemma store_schema_ok (w : World) : store_schema w -> store_ok w.
Proof.
  intros (td & r & hd & Htd & _ & Hh & Hr & Hhd & _ & _ & Hsc).
  by exists td, r, hd.
Qed.

Lemma schema_store_scalar (w : World) (k s : string) :
  store_schema w -> k ∈ scalar_columns -> k <> "speed" ->
  store_schema (store k (VStr s) w).
Proof.
  intros (td & r & hd & Htd & Hkeys & Hh & Hr & Hhd & Hshape & Hspeed & Hsc) Hk Hns.
  assert (Hnh : k <> "health").
  { intros ->. revert Hk. unfold scalar_columns. rewrite !elem_of_cons, elem_of_nil.
    intuition discriminate. }
  exists (dict_set k (VStr s) td), r, hd.
  unfold store, setitem. cbn [heap telemetry_data set_heap].
  rewrite list_lookup_alter_eq, Htd, list_lookup_alter_ne by done.
  repeat split; try done.
  - rewrite dict_keys_set_present; [done|]. rewrite Hkeys. apply elem_of_app. by left.
  - rewrite dict_get_set. destruct (String.eqb_spec k "health"); [congruence | done].
  - rewrite dict_get_set. destruct (String.eqb_spec k "speed"); [congruence | done].
  - intros k' v. rewrite dict_get_set.
    destruct (String.eqb_spec k k'); [intros [= <-]; eauto | apply Hsc].
Qed.

Lemma schema_fetch_health (w : World) (health : Health) :
  store_schema w -> store_schema (fetch_health_item health w).
Proof.
  intros (td & r & hd & Htd & Hkeys & Hh & Hr & Hhd & Hshape & Hspeed & Hsc).
  pose proof (lookup_lt_Some _ _ _ Htd) as Hlt.
  exists (dict_set "health" (VDict (length (heap w))) td), (length (heap w)), (health_dict health).
  unfold fetch_health_item, alloc, store, setitem. cbn [heap telemetry_data set_heap].
  rewrite list_lookup_alter_eq, lookup_app_l, Htd by done.
  rewrite list_lookup_alter_ne, lookup_last by lia.
  split_and!; try done; try lia.
  - rewrite dict_keys_set_present; [done|]. rewrite Hkeys. apply elem_of_app. right.
    apply elem_of_cons. by left.
  - by rewrite dict_get_set.
  - right. by exists health.
  - rewrite dict_get_set. done.
  - intros k' v. rewrite dict_get_set.
    destruct (String.eqb_spec "health" k'); [congruence | apply Hsc].
Qed.

Lemma schema_apply_item (i : item) (w : World) :
  store_schema w -> store_schema (apply_item i w).
Proof.
  intros Hok.
  destruct i as [pos|att|batt|gps|mode|armed|rc|health]; cbn [apply_item];
    [unfold fetch_position_item | unfold fetch_attitude_item
    | unfold fetch_battery_item | unfold fetch_gps_item
    | unfold fetch_flight_mode_item | unfold fetch_armed_status_item
    | unfold fetch_rc_signal_item; destruct (signal_strength_percent rc)
    | by apply schema_fetch_health ];
    cbv zeta;
    repeat (apply schema_store_scalar;
            [| refine (bool_decide_unpack _ _); vm_compute; exact I | discriminate]);
    done.
Qed.

Lemma schema_extends (w w' : World) (ext : heap_t) :
  store_schema w ->
  telemetry_data w' = telemetry_data w ->
  heap w' = heap w ++ ext ->
  store_schema w'.
Proof.
  intros (td & r & hd & Htd & Hkeys & Hh & Hr & Hhd & Hshape & Hspeed & Hsc) Hg Hheap.
  exists td, r, hd. rewrite Hg, Hheap.
  repeat split; try done; by apply lookup_app_l_Some.
Qed.

Lemma step_schema (ev : event) (w w' : World) (acts : list action) :
  store_schema w -> step ev w = Some (w', acts) -> store_schema w'.
Proof.
  intros Hok Hstep.
  destruct (step_globals _ _ _ _ Hstep) as [Hg _].
  destruct (step_heap _ _ _ _ Hstep) as [(i & -> & ->)|(_ & ext & Hext)].
  - by apply schema_apply_item.
  - by eapply schema_extends.
Qed.

Lemma run_schema (evs : list event) (w w' : World) (acts : list action) :
  store_schema w -> run evs w = Some (w', acts) -> store_schema w'.
Proof.
  revert w acts. induction evs as [|ev evs IH]; intros w acts Hok Hrun.
  - apply run_nil_inv in Hrun as [-> _]. done.
  - apply run_cons_inv in Hrun as (w1 & a1 & a2 & Hstep & Hrest & _).
    eapply IH; [|exact Hrest]. by eapply step_schema.
Qed.

Lemma load_module_schema (t0 : Z) (file : option (list csv_row)) :
  store_schema (load_module t0 file).
Proof.
  exists (telemetry_literal 1), 1%nat, health_literal.
  repeat split; try done; [by left|].
  intros k v Hk Hne. apply dict_get_elem in Hk. unfold telemetry_literal in Hk.
  repeat (apply elem_of_cons in Hk as [[= -> ->]|Hk]; [first [by eauto | congruence]|]).
  by apply elem_of_nil in Hk.
Qed.

Lemma reachable_schema (t0 : Z) (file : option (list csv_row)) (evs : list event)
      (w : World) (acts : list action) :
  run evs (main t0 file).1 = Some (w, acts) -> store_schema w.
Proof.
  apply run_schema. unfold main, enter_run. cbn [fst].
  destruct (load_module_schema t0 file) as (td & r & hd & H).
  by exists td, r, hd.
Qed.

End Schema.
(** ** The row of a state *)

Section StoreRows.

Lemma field_scalar_text (w : World) (td : pydict) (k s : string) :
  heap w !! telemetry_data w = Some td ->
  dict_get k td = Some (VStr s) ->
  field w k = Some (Scalar (VStr s)).
Proof.
  intros Htd Hk. unfold field, view. rewrite Htd. cbn [mbind option_bind].
  by rewrite Hk.
Qed.

Lemma checklist_lookup (w : World) (td hd : pydict) (r : nat) :
  heap w !! telemetry_data w = Some td ->
  dict_get "health" td = Some (VDict r) ->
  heap w !! r = Some hd ->
  checklist w = Some hd.
Proof.
  intros Htd Hh Hhd. apply checklist_field. unfold field, view.
  rewrite Htd. cbn [mbind option_bind]. rewrite Hh. cbn [mbind option_bind].
  by rewrite Hhd.
Qed.

(** A dictionary with the keys of the schema is the literal with other
    values: text under the scalar keys, a reference under ["health"]. *)
Lemma schema_entries (td : pydict) (r : nat) :
  dict_keys td = scalar_columns ++ ["health"] ->
  dict_get "health" td = Some (VDict r) ->
  (forall k v, dict_get k td = Some v -> k <> "health" -> exists s, v = VStr s) ->
  exists lat lon alt abs_alt speed roll pitch yaw voltage battery gps_fix satellites
         flight_mode armed rc_signal : string,
    td = [("lat", VStr lat); ("lon", VStr lon); ("alt", VStr alt);
          ("abs_alt", VStr abs_alt); ("speed", VStr speed); ("roll", VStr roll);
          ("pitch", VStr pitch); ("yaw", VStr yaw); ("voltage", VStr voltage);
          ("battery", VStr battery); ("gps_fix", VStr gps_fix);
          ("satellites", VStr satellites); ("flight_mode", VStr flight_mode);
          ("armed", VStr armed); ("rc_signal", VStr rc_signal); ("health", VDict r)].
Proof.
  intros Hkeys Hh Hsc. unfold dict_keys, scalar_columns in Hkeys.
  do 16 (destruct td as [|[? ?] td]; [discriminate Hkeys|];
         cbn [fmap list_fmap fst app] in Hkeys;
         apply (f_equal (fun l : list string => (head l, tail l))) in Hkeys;
         cbn [head tail] in Hkeys; injection Hkeys as -> Hkeys).
  destruct td; [|discriminate Hkeys]. clear Hkeys.
  injection Hh as ->.
  repeat match goal with
         | v : value |- _ =>
             match goal with
             | H : context [(?k, v)] |- _ =>
                 let s := fresh "s" in
                 destruct (Hsc k v) as [s ->]; [reflexivity | discriminate |]
             end
         end.
  by repeat eexists.
Qed.

(** In a state with the layout of the schema, the row a tick computes
    is the row read off the Store field by field. *)
Lemma schema_row (w : World) (td hd : pydict) (r : nat) :
  store_schema w ->
  heap w !! telemetry_data w = Some td ->
  dict_get "health" td = Some (VDict r) ->
  heap w !! r = Some hd ->
  csv_row_of (isoformat (clock w)) td hd = store_row w.
Proof.
  intros (td' & r' & hd' & Htd' & Hkeys & Hh' & Hr & Hhd' & Hshape & Hspeed & Hsc)
         Htd Hh Hhd.
  assert (td' = td) as -> by congruence.
  assert (r' = r) as -> by congruence.
  assert (hd' = hd) as -> by congruence.
  clear Htd' Hh' Hhd'.
  pose proof (checklist_lookup _ _ _ _ Htd Hh Hhd) as Hchk.
  destruct (schema_entries _ _ Hkeys Hh Hsc)
    as (lat & lon & alt & abs_alt & speed & roll & pitch & yaw & voltage & battery &
        gps_fix & satellites & flight_mode & armed & rc_signal & ->).
  injection Hspeed as ->.
  unfold store_row, scalar_columns, health_names, field_cell, check_cell.
  cbn [map app]. rewrite Hchk.
  rewrite !(field_scalar_text _ _ _ _ Htd) by reflexivity.
  rewrite <- (na_to_zero_id (VStr (isoformat (clock w)))) by apply isoformat_not_na.
  destruct Hshape as [->|[health ->]];
    generalize (isoformat (clock w)); intros ts; clear;
    (rewrite csv_row_nodup;
     [vm_compute; reflexivity | refine (bool_decide_unpack _ _); vm_compute; exact I]).
Qed.

(** A tick in such a state: its [flat_data] gives the row of the Store. *)
Lemma schema_log_tick (io : io_result) (w : World) :
  store_schema w ->
  exists fd,
    log_to_csv_tick io w = Some (tick_result io fd w) /\
    writerow header (row_data fd) = store_row w.
Proof.
  intros Hs. pose proof Hs as (td & r & hd & Htd & _ & Hh & _ & Hhd & _).
  exists (flat_dict (isoformat (clock w)) td hd). split.
  - by apply (log_tick_ok io w td hd r).
  - by apply (schema_row w td hd r).
Qed.

Lemma schema_field_text (w : World) (k : string) :
  store_schema w -> k ∈ scalar_columns ->
  exists s, field w k = Some (Scalar (VStr s)).
Proof.
  intros (td & r & hd & Htd & Hkeys & Hh & _ & _ & _ & _ & Hsc) Hk.
  destruct (schema_entries _ _ Hkeys Hh Hsc)
    as (lat & lon & alt & abs_alt & speed & roll & pitch & yaw & voltage & battery &
        gps_fix & satellites & flight_mode & armed & rc_signal & ->).
  unfold scalar_columns in Hk.
  repeat (apply elem_of_cons in Hk as [->|Hk];
          [eexists; by apply (field_scalar_text _ _ _ _ Htd)|]).
  by apply elem_of_nil in Hk.
Qed.

End StoreRows.
(** ** Layout of the Store and of the rows *)

(** X1. In every state a run of the program reaches, [telemetry_data]
    has the sixteen keys of its literal, in the literal's order: no
    key is ever added or removed. Each of the fifteen scalar keys holds
    a text, ["speed"] still the marker, as no fetcher writes it, and
    the checklist is the literal's or one built from a health item. *)
Theorem store_layout_invariant (t0 : Z) (file : option (list csv_row))
        (evs : list event) (w : World) (acts : list action) :
  run evs (main t0 file).1 = Some (w, acts) ->
  store_keys w = Some (scalar_columns ++ ["health"]) /\
  (forall k, k ∈ scalar_columns -> exists s, field w k = Some (Scalar (VStr s))) /\
  field w "speed" = Some (Scalar (VStr "N/A")) /\
  (exists d, checklist w = Some d /\
             (d = health_literal \/ exists health, d = health_dict health)).
Proof.
  intros Hrun. pose proof (reachable_schema _ _ _ _ _ Hrun) as Hs.
  pose proof Hs as (td & r & hd & Htd & Hkeys & Hh & _ & Hhd & Hshape & Hspeed & _).
  split; [|split; [|split]].
  - unfold store_keys. by rewrite Htd, <- Hkeys.
  - intros k Hk. by apply schema_field_text.
  - by apply (field_scalar_text _ _ _ _ Htd).
  - exists hd. split; [by apply (checklist_lookup _ _ _ _ Htd Hh Hhd) | exact Hshape].
Qed.

Lemma store_layout_invariant_witness :
  exists w acts,
    run sample_flight (main sample_start None).1 = Some (w, acts) /\
    store_keys w =
      Some ["lat"; "lon"; "alt"; "abs_alt"; "speed"; "roll"; "pitch"; "yaw"; "voltage";
            "battery"; "gps_fix"; "satellites"; "flight_mode"; "armed"; "rc_signal";
            "health"] /\
    field w "speed" = Some (Scalar (VStr "N/A")).
Proof.
  destruct (run sample_flight (main sample_start None).1) as [[w acts]|] eqn:Hr;
    [|vm_compute in Hr; discriminate Hr].
  destruct (store_layout_invariant _ _ _ _ _ Hr) as (Hk & _ & Hsp & _).
  exists w, acts. split; [reflexivity|]. split; [exact Hk | exact Hsp].
Defined.
Section RowCells.

Lemma store_row_scalar (w : World) (j : nat) (k : string) :
  k ∈ scalar_columns ->
  header !! j = Some k ->
  store_row w !! j = Some (field_cell w k).
Proof.
  unfold store_row. generalize (field_cell w) (check_cell w) (VStr (isoformat (clock w))).
  intros f g ts Hk Hj. unfold scalar_columns in Hk.
  repeat (apply elem_of_cons in Hk as [->|Hk];
          [do 23 (destruct j as [|j]; [first [discriminate Hj | reflexivity]|]);
           discriminate Hj|]).
  by apply elem_of_nil in Hk.
Qed.

Lemma store_row_check (w : World) (j : nat) (name : string) :
  name ∈ health_names ->
  header !! j = Some (health_column name) ->
  store_row w !! j = Some (check_cell w name).
Proof.
  unfold store_row. generalize (field_cell w) (check_cell w) (VStr (isoformat (clock w))).
  intros f g ts Hk Hj. unfold health_names in Hk. cbn in Hk.
  repeat (apply elem_of_cons in Hk as [->|Hk];
          [do 23 (destruct j as [|j]; [first [discriminate Hj | reflexivity]|]);
           discriminate Hj|]).
  by apply elem_of_nil in Hk.
Qed.



End RowCells.

(** X2. In every state a run of the program reaches, a tick of
    [log_to_csv] whose writing goes through emits the row read off the
    Store: as many cells as the header has columns, the timestamp
    first, under each scalar column the field of that name with the
    marker turned into [0], and under each [health_] column the check
    of that name, whatever the order of the checklist dictionary. The
    column ["speed"] holds [0] in every row. *)
Theorem log_row_reads_store (t0 : Z) (file : option (list csv_row))
        (evs : list event) (w : World) (acts : list action) :
  run evs (main t0 file).1 = Some (w, acts) ->
  exists w' acts' row,
    log_to_csv_tick IoOk w = Some (w', acts') /\
    emitted_row acts' = Some row /\
    length row = length header /\
    row !! 0%nat = Some (VStr (isoformat (clock w))) /\
    (forall j k, k ∈ scalar_columns -> header !! j = Some k ->
                 row !! j = Some (field_cell w k)) /\
    (forall j name, name ∈ health_names -> header !! j = Some (health_column name) ->
                    row !! j = Some (check_cell w name)) /\
    (forall j, header !! j = Some "speed" -> row !! j = Some (VInt 0)).
Proof.
  intros Hrun. pose proof (reachable_schema _ _ _ _ _ Hrun) as Hs.
  destruct (schema_log_tick IoOk w Hs) as (fd & Htick & Hrow).
  exists (tick_result IoOk fd w).1, (tick_result IoOk fd w).2, (store_row w).
  split; [by rewrite <- surjective_pairing|].
  split; [rewrite tick_result_ok; cbn [snd]; rewrite Hrow; by destruct (disk w)|].
  split; [unfold store_row; cbn [length]; by rewrite length_app, !length_map|].
  split; [reflexivity|].
  split; [intros j k; apply store_row_scalar|].
  split; [intros j name; apply store_row_check|].
  intros j Hj. rewrite (store_row_scalar w j "speed");
    [|refine (bool_decide_unpack _ _); vm_compute; exact I | exact Hj].
  unfold field_cell.
  destruct Hs as (td & r & hd & Htd & _ & _ & _ & _ & _ & Hspeed & _).
  by rewrite (field_scalar_text _ _ _ _ Htd Hspeed).
Qed.

Lemma log_row_reads_store_witness :
  exists w acts w' acts' row,
    run sample_flight (main sample_start None).1 = Some (w, acts) /\
    log_to_csv_tick IoOk w = Some (w', acts') /\
    emitted_row acts' = Some row /\
    row !! 1%nat = Some (VStr "1.000000") /\
    row !! 5%nat = Some (VInt 0) /\
    row !! 11%nat = Some (VStr "FIX_3D").
Proof.
  destruct (run sample_flight (main sample_start None).1) as [[w acts]|] eqn:Hr;
    [|vm_compute in Hr; discriminate Hr].
  destruct (log_row_reads_store _ _ _ _ _ Hr)
    as (w' & acts' & row & Htick & Hrow & _ & _ & Hsc & _ & Hsp).
  exists w, acts, w', acts', row.
  split; [reflexivity|]. split; [exact Htick|]. split; [exact Hrow|].
  vm_compute in Hr. injection Hr as <- _.
  split; [|split].
  - rewrite (Hsc 1%nat "lat"); [vm_compute; reflexivity | | reflexivity].
    refine (bool_decide_unpack _ _). vm_compute. exact I.
  - apply Hsp. reflexivity.
  - rewrite (Hsc 11%nat "gps_fix"); [vm_compute; reflexivity | | reflexivity].
    refine (bool_decide_unpack _ _). vm_compute. exact I.
Defined.


(** ** The log file over a run *)

Section FileGrowth.



End FileGrowth.


(** ** The pace of the consumers *)

Section Pace.








End Pace.


(** ** The fetchers outside their failures *)

(** X6. When the subscription of a fetcher ends without an exception,
    the fetcher subscribes again at once: the [async for] is left and
    [while True] enters it anew, with no entry in the error log and no
    delay. Any number of such ends in a row gives as many new
    subscriptions and leaves the state exactly as it was. *)
Theorem ended_stream_resubscribed_at_once (c : Category) (n : nat) (w : World) :
  tasks w (Fetcher c) = Streaming ->
  run (replicate n (EvStreamStop c)) w = Some (w, replicate n (ActSubscribe c)).
Proof.
  intros Hst. induction n as [|n IH]; [reflexivity|].
  cbn [replicate run step]. rewrite Hst. cbn [mbind option_bind].
  rewrite IH. reflexivity.
Qed.

Lemma ended_stream_resubscribed_at_once_witness :
  tasks sample_streaming (Fetcher CatRc) = Streaming /\
  run [EvStreamStop CatRc; EvStreamStop CatRc; EvStreamStop CatRc] sample_streaming =
    Some (sample_streaming, [ActSubscribe CatRc; ActSubscribe CatRc; ActSubscribe CatRc]).
Proof.
  split; [reflexivity|].
  exact (ended_stream_resubscribed_at_once CatRc 3 sample_streaming eq_refl).
Defined.

(** X7. An RC status whose signal strength cannot be read or formatted
    is no failure of the fetcher: the inner handler stores the marker
    under ["rc_signal"] and the loop goes on with the next item, with
    no entry in the error log, no sleep and the subscription kept; the
    next row holds [0] in that column. A strength that can be read is
    stored with one fraction digit and never turned into [0]. No other
    field changes either way. *)
Theorem unreadable_rc_signal_stores_marker (t0 : Z) (file : option (list csv_row))
        (evs : list event) (w : World) (acts : list action) (rc : RcStatus) :
  run evs (main t0 file).1 = Some (w, acts) ->
  tasks w (Fetcher CatRc) = Streaming ->
  exists w1,
    step (EvItem (IRc rc)) w = Some (w1, []) /\
    error_list w1 = error_list w /\ tasks w1 = tasks w /\ clock w1 = clock w /\
    disk w1 = disk w /\
    (forall k, k <> "rc_signal" -> field w1 k = field w k) /\
    field w1 "rc_signal" = Some (Scalar (VStr (rc_text rc))) /\
    field_cell w1 "rc_signal" =
      match signal_strength_percent rc with
      | Some x => VStr (format_f 1 x)
      | None => VInt 0
      end /\
    exists w2 acts2 row,
      log_to_csv_tick IoOk w1 = Some (w2, acts2) /\
      emitted_row acts2 = Some row /\
      row !! 15%nat = Some (field_cell w1 "rc_signal").
Proof.
  intros Hrun Hst. pose proof (reachable_schema _ _ _ _ _ Hrun) as Hs.
  pose proof (store_schema_ok _ Hs) as Hok.
  exists (apply_item (IRc rc) w).
  split; [cbn [step item_cat]; by rewrite Hst|].
  rewrite (apply_item_frame (IRc rc) w) at 1 2 3 4.
  do 4 (split; [reflexivity|]).
  assert (Hf : forall k, field (apply_item (IRc rc) w) k =
                         if String.eqb "rc_signal" k
                         then Some (Scalar (VStr (rc_text rc))) else field w k).
  { intros k. rewrite (apply_item_field _ _ _ Hok). cbn [spec_item_updates assoc].
    unfold rc_text. by destruct (String.eqb "rc_signal" k). }
  split; [|split; [|split]].
  - intros k Hk. rewrite Hf. destruct (String.eqb_spec "rc_signal" k); [congruence | done].
  - by rewrite Hf.
  - unfold field_cell. rewrite Hf. cbn [String.eqb Ascii.eqb Bool.eqb]. unfold rc_text.
    destruct (signal_strength_percent rc); [|reflexivity].
    apply na_to_zero_id, format_f_not_na.
  - pose proof (schema_apply_item (IRc rc) w Hs) as Hs1.
    destruct (schema_log_tick IoOk _ Hs1) as (fd & Htick & Hrow).
    eexists _, _, (store_row (apply_item (IRc rc) w)).
    split; [rewrite Htick; by rewrite <- surjective_pairing|].
    split; [rewrite tick_result_ok; cbn [snd]; rewrite Hrow;
            by destruct (disk (apply_item (IRc rc) w))|].
    reflexivity.
Qed.

Lemma unreadable_rc_signal_stores_marker_witness :
  exists w acts w1,
    run (sample_flight ++ [EvResume (TaskOf (Fetcher CatRc))]) (main sample_start None).1
      = Some (w, acts) /\
    tasks w (Fetcher CatRc) = Streaming /\
    step (EvItem (IRc {| signal_strength_percent := None |})) w = Some (w1, []) /\
    field w1 "rc_signal" = Some (Scalar (VStr "N/A")) /\
    field_cell w1 "rc_signal" = VInt 0.
Proof.
  destruct (run (sample_flight ++ [EvResume (TaskOf (Fetcher CatRc))])
                (main sample_start None).1) as [[w acts]|] eqn:Hr;
    [|vm_compute in Hr; discriminate Hr].
  assert (Hst : tasks w (Fetcher CatRc) = Streaming).
  { vm_compute in Hr. injection Hr as <- _. reflexivity. }
  destruct (unreadable_rc_signal_stores_marker _ _ _ _ _ {| signal_strength_percent := None |}
              Hr Hst) as (w1 & Hstep & _ & _ & _ & _ & _ & Hf & Hc & _).
  exists w, acts, w1. split; [reflexivity|]. split; [exact Hst|].
  split; [exact Hstep|]. split; [exact Hf | exact Hc].
Defined.

(** X8. A delivered item changes the Store alone, and in it the fields
    of its own category alone: the error log, the clock, the log file,
    the state of every task and of the supervisor, and every field of
    another category are as before; the fields of the category hold
    the values of the item. So the attitude, battery and armed fetchers
    write [roll], [pitch], [yaw], [voltage], [battery], [armed] and
    nothing else. *)
Theorem item_changes_own_fields_only (i : item) (w : World) :
  store_ok w ->
  tasks w (Fetcher (item_cat i)) = Streaming ->
  exists w1,
    step (EvItem i) w = Some (w1, []) /\
    error_list w1 = error_list w /\ clock w1 = clock w /\ disk w1 = disk w /\
    tasks w1 = tasks w /\ sup w1 = sup w /\ filename w1 = filename w /\
    store_ok w1 /\
    (forall k, k ∉ category_fields (item_cat i) -> field w1 k = field w k) /\
    (forall k, k ∈ category_fields (item_cat i) ->
               field w1 k = assoc k (spec_item_updates i) /\ is_Some (field w1 k)).
Proof.
  intros Hok Hst. exists (apply_item i w).
  split; [cbn [step]; by rewrite Hst|].
  rewrite (apply_item_frame i w) at 1 2 3 4 5 6.
  do 6 (split; [reflexivity|]).
  split; [by apply apply_item_ok|].
  assert (Hkeys : forall k, k ∈ category_fields (item_cat i) <->
                            is_Some (assoc k (spec_item_updates i))).
  { intros k. rewrite <- item_updates_fields.
    generalize (spec_item_updates i). intros l.
    induction l as [|[k' v] l IH]; cbn [assoc fmap list_fmap fst].
    - split; [by intros ?%elem_of_nil | by intros [? [=]]].
    - rewrite elem_of_cons. destruct (String.eqb_spec k' k) as [->|Hne].
      + split; [by eexists | by left].
      + rewrite <- IH. split; [intros [?|?]; [congruence | done] | by right]. }
  split.
  - intros k Hk. rewrite (apply_item_field _ _ _ Hok).
    destruct (assoc k (spec_item_updates i)) eqn:Ha; [|done].
    destruct Hk. apply Hkeys. by rewrite Ha.
  - intros k Hk. apply Hkeys in Hk as [v Hv].
    rewrite (apply_item_field _ _ _ Hok), Hv. split; [done | by eexists].
Qed.

Lemma item_changes_own_fields_only_witness :
  exists w1,
    step (EvItem (IBattery sample_battery))
         (set_task (Fetcher CatBattery) Streaming sample_launched) = Some (w1, []) /\
    field w1 "voltage" = Some (Scalar (VStr "15.75")) /\
    field w1 "battery" = Some (Scalar (VStr "87.0")) /\
    field w1 "roll" = Some (Scalar (VStr "N/A")).
Proof.
  assert (Hok : store_ok (set_task (Fetcher CatBattery) Streaming sample_launched))
    by exact (load_module_ok sample_start None).
  destruct (item_changes_own_fields_only (IBattery sample_battery) _ Hok eq_refl)
    as (w1 & Hstep & _ & _ & _ & _ & _ & _ & _ & Hother & Hown).
  exists w1. split; [exact Hstep|].
  assert (Hv : "voltage" ∈ category_fields CatBattery)
    by (refine (bool_decide_unpack _ _); vm_compute; exact I).
  assert (Hb : "battery" ∈ category_fields CatBattery)
    by (refine (bool_decide_unpack _ _); vm_compute; exact I).
  assert (Hr : "roll" ∉ category_fields CatBattery)
    by (refine (bool_decide_unpack _ _); vm_compute; exact I).
  destruct (Hown _ Hv) as [-> _]. destruct (Hown _ Hb) as [-> _]. rewrite (Hother _ Hr).
  vm_compute. repeat split; reflexivity.
Defined.
(** ** The display consumer *)

Section Display.

(** In a state with the layout of the schema, the rendering meets no
    missing key: it prints the screen of the state. *)
Lemma schema_display_lines (w : World) :
  store_schema w ->
  (length (error_list w) <= MAX_ERRORS_DISPLAYED)%nat ->
  display_lines w = Some (screen w, None).
Proof.
  intros (td & r & hd & Htd & Hkeys & Hh & _ & Hhd & _ & _ & Hsc) Hlen.
  pose proof (checklist_lookup _ _ _ _ Htd Hh Hhd) as Hchk.
  destruct (schema_entries _ _ Hkeys Hh Hsc)
    as (lat & lon & alt & abs_alt & speed & roll & pitch & yaw & voltage & battery &
        gps_fix & satellites & flight_mode & armed & rc_signal & ->).
  unfold display_lines, screen. rewrite Htd, Hchk. cbn [mbind option_bind default id].
  unfold display_fields. cbn [map fst snd]. unfold field_text.
  rewrite !(field_scalar_text _ _ _ _ Htd) by reflexivity.
  cbn [render_fields dict_get String.eqb Ascii.eqb Bool.eqb fst snd show].
  rewrite Hhd. cbn [mbind option_bind].
  destruct (error_list w) as [|e l] eqn:He; [reflexivity|].
  rewrite <- He, last_n_short by (by rewrite He). reflexivity.
Qed.

Lemma display_tick_ok (w : World) :
  store_schema w ->
  (length (error_list w) <= MAX_ERRORS_DISPLAYED)%nat ->
  display_loop_tick IoOk w =
  Some (set_task DisplayLoop (Sleeping (clock w + 1)) w,
        ActClear :: map ActPrint (screen w) ++ [ActSleep (TaskOf DisplayLoop) 1]).
Proof.
  intros Hs Hlen. unfold display_loop_tick. by rewrite schema_display_lines.
Qed.

Lemma printed_prints (lines : list string) (rest : list action) :
  printed (map ActPrint lines ++ rest) = lines ++ printed rest.
Proof.
  unfold printed. induction lines as [|l lines IH]; [done|].
  cbn. f_equal. exact IH.
Qed.

Lemma refresh_errors (who : Coroutine) (lines : list string) (rest : list action) :
  errors_of who (ActClear :: map ActPrint lines ++ rest) = errors_of who rest.
Proof. unfold errors_of. change (ActClear :: ?l) with ([ActClear] ++ l). by rewrite omap_app, omap_prints. Qed.

Lemma refresh_sleeps (who : Coroutine) (lines : list string) (rest : list action) :
  sleeps_of who (ActClear :: map ActPrint lines ++ rest) = sleeps_of who rest.
Proof. unfold sleeps_of. change (ActClear :: ?l) with ([ActClear] ++ l). by rewrite omap_app, omap_prints. Qed.

(** What a step adds to the entries and the sleeps of the display. *)
Lemma step_display_accounting (ev : event) (w w' : World) (acts : list action) :
  store_schema w ->
  (length (error_list w) <= MAX_ERRORS_DISPLAYED)%nat ->
  step ev w = Some (w', acts) ->
  Forall2 (fun entry e => exists w0, entry = error_entry (error_tag (TaskOf DisplayLoop) +:+ e) w0)
          (errors_of (TaskOf DisplayLoop) acts) (display_failures [ev]) /\
  sleeps_of (TaskOf DisplayLoop) acts = replicate (display_ticks [ev]) 1.
Proof.
  intros Hs Hlen Hstep.
  assert (Hcase : (exists io, ev = EvDisplay io) \/ (exists io, ev = EvLog io) \/
                  ((forall io, ev <> EvDisplay io) /\ (forall io, ev <> EvLog io))).
  { destruct ev; try (right; right; by split); [left | right; left]; by eexists. }
  destruct Hcase as [[io ->]|[[io ->]|[Hnd Hnl]]].
  - cbn [step] in Hstep. destruct (runnable _ _); [|discriminate Hstep].
    destruct io as [|e].
    + rewrite display_tick_ok in Hstep by done.
      assert (acts = ActClear :: map ActPrint (screen w) ++
                     [ActSleep (TaskOf DisplayLoop) 1]) as -> by congruence.
      rewrite refresh_errors, refresh_sleeps.
      split; [constructor | reflexivity].
    + injection Hstep as _ <-. split; [|reflexivity].
      cbn. constructor; [by eexists | constructor].
  - cbn [step] in Hstep. destruct (runnable _ _); [|discriminate Hstep].
    apply log_tick_inv in Hstep as (td & hd & Hstep).
    apply (f_equal snd) in Hstep. cbn [snd] in Hstep. subst acts.
    destruct io as [|e]; [rewrite tick_result_ok | rewrite tick_result_raise]; cbn [snd].
    + generalize (writerow header (row_data (flat_dict (isoformat (clock w)) td hd))).
      intros row. destruct (disk w); split; (constructor || reflexivity).
    + split; (constructor || reflexivity).
  - destruct ev; try (by destruct (Hnd r)); try (by destruct (Hnl r));
      step_inv Hstep; split; first [constructor | reflexivity | (vm_compute; constructor)].
Qed.

Lemma display_failures_cons (ev : event) (evs : list event) :
  display_failures (ev :: evs) = display_failures [ev] ++ display_failures evs.
Proof. destruct ev as [| | | | | | | | | |[|e]|]; reflexivity. Qed.

Lemma display_ticks_cons (ev : event) (evs : list event) :
  display_ticks (ev :: evs) = (display_ticks [ev] + display_ticks evs)%nat.
Proof. destruct ev; reflexivity. Qed.

Lemma run_display_accounting (evs : list event) (w w' : World) (acts : list action) :
  store_schema w ->
  (length (error_list w) <= MAX_ERRORS_DISPLAYED)%nat ->
  run evs w = Some (w', acts) ->
  Forall2 (fun entry e => exists w0, entry = error_entry (error_tag (TaskOf DisplayLoop) +:+ e) w0)
          (errors_of (TaskOf DisplayLoop) acts) (display_failures evs) /\
  sleeps_of (TaskOf DisplayLoop) acts = replicate (display_ticks evs) 1.
Proof.
  revert w acts. induction evs as [|ev evs IH]; intros w acts Hs Hlen Hr.
  - apply run_nil_inv in Hr as [-> ->]. split; [constructor | reflexivity].
  - apply run_cons_inv in Hr as (w1 & a1 & a2 & Hstep & Hr & ->).
    destruct (step_display_accounting _ _ _ _ Hs Hlen Hstep) as [He1 Hsl1].
    destruct (IH _ _ (step_schema _ _ _ _ Hs Hstep)
                 (step_error_bound _ _ _ _ Hlen Hstep) Hr) as [He2 Hsl2].
    rewrite errors_of_app, sleeps_of_app, display_failures_cons, display_ticks_cons.
    split; [by apply Forall2_app|].
    by rewrite Hsl1, Hsl2, replicate_add.
Qed.

Lemma schema_checklist_length (w : World) (d : pydict) :
  store_schema w -> checklist w = Some d -> length d = 7%nat.
Proof.
  intros (td & r & hd & Htd & _ & Hh & _ & Hhd & Hshape & _) Hd.
  rewrite (checklist_lookup _ _ _ _ Htd Hh Hhd) in Hd. injection Hd as <-.
  by destruct Hshape as [->|[health ->]].
Qed.

End Display.

(** X9. In every state a run of the program reaches, one iteration of
    [display_loop] with a working terminal meets no missing key and
    no exception: it clears the terminal, prints the screen of the
    state and sleeps one time unit, and it changes nothing but its own
    place in the schedule. The screen shows the title, the fourteen
    scalar fields, the seven checks in the order of the checklist
    dictionary, and every entry of the error log, oldest first, for
    the log never holds more than the five the slice takes; the line
    [No errors recorded] stands for an empty log. *)
Theorem display_prints_screen (t0 : Z) (file : option (list csv_row))
        (evs : list event) (w : World) (acts : list action) :
  run evs (main t0 file).1 = Some (w, acts) ->
  exists acts',
    display_loop_tick IoOk w =
      Some (set_task DisplayLoop (Sleeping (clock w + 1)) w, acts') /\
    printed acts' = screen w /\
    errors_of (TaskOf DisplayLoop) acts' = [] /\
    sleeps_of (TaskOf DisplayLoop) acts' = [1] /\
    length (screen w) = (25 + Nat.max 1 (length (error_list w)))%nat /\
    (length (error_list w) <= MAX_ERRORS_DISPLAYED)%nat /\
    (forall entry, entry ∈ error_list w -> entry ∈ screen w).
Proof.
  intros Hrun. pose proof (reachable_schema _ _ _ _ _ Hrun) as Hs.
  assert (Hlen : (length (error_list w) <= MAX_ERRORS_DISPLAYED)%nat).
  { eapply run_error_bound; [|exact Hrun]. cbn. lia. }
  eexists. split; [by apply display_tick_ok|].
  split; [change (printed (map ActPrint (screen w) ++ [ActSleep (TaskOf DisplayLoop) 1])
                  = screen w);
          rewrite printed_prints; apply app_nil_r|].
  split; [by rewrite refresh_errors|].
  split; [by rewrite refresh_sleeps|].
  destruct (checklist w) as [d|] eqn:Hd.
  2:{ destruct Hs as (td & r & hd & Htd & _ & Hh & _ & Hhd & _).
      by rewrite (checklist_lookup _ _ _ _ Htd Hh Hhd) in Hd. }
  pose proof (schema_checklist_length _ _ Hs Hd) as Hd7.
  split; [|split; [exact Hlen|]].
  - unfold screen. rewrite Hd. cbn [default id length].
    rewrite !length_app, !length_map. cbn [length]. rewrite Hd7.
    unfold display_fields. cbn [length].
    destruct (error_list w); cbn [length]; lia.
  - intros entry He. unfold screen. apply elem_of_cons. right.
    rewrite !elem_of_app. right. right. right. right. left.
    destruct (error_list w); [by apply elem_of_nil in He | exact He].
Qed.

Lemma display_prints_screen_witness :
  exists w acts acts',
    run sample_flight (main sample_start None).1 = Some (w, acts) /\
    display_loop_tick IoOk w =
      Some (set_task DisplayLoop (Sleeping (clock w + 1)) w, acts') /\
    printed acts' !! 3%nat = Some "Latitude       : 1.000000" /\
    printed acts' !! 24%nat = Some "No errors recorded" /\
    length (printed acts') = 26%nat.
Proof.
  destruct (run sample_flight (main sample_start None).1) as [[w acts]|] eqn:Hr;
    [|vm_compute in Hr; discriminate Hr].
  destruct (display_prints_screen _ _ _ _ _ Hr) as (acts' & Htick & Hp & _).
  exists w, acts, acts'. split; [reflexivity|]. split; [exact Htick|].
  rewrite Hp. vm_compute in Hr. injection Hr as <- _.
  vm_compute. repeat split; reflexivity.
Defined.

(** X10. An exception the terminal raises into [display_loop] is
    handled in the loop: one entry tagged [Display loop error: ] is
    recorded, the task sleeps one time unit, and the Store, the log
    file, the supervisor and every other task are untouched. These are
    the only entries the display ever records: over every run of the
    program the entries with its tag answer one by one to the
    exceptions of the terminal, so the rendering itself never raises,
    and the task sleeps one unit after each iteration, failed or
    not. *)
Theorem display_errors_come_from_terminal (t0 : Z) (file : option (list csv_row))
        (evs : list event) (w : World) (acts : list action) :
  run evs (main t0 file).1 = Some (w, acts) ->
  Forall2 (fun entry e => exists w0, entry = error_entry ("Display loop error: " +:+ e) w0)
          (errors_of (TaskOf DisplayLoop) acts) (display_failures evs) /\
  sleeps_of (TaskOf DisplayLoop) acts = replicate (display_ticks evs) 1 /\
  (forall e,
      runnable (tasks w DisplayLoop) (clock w) = true ->
      exists w1,
        step (EvDisplay (IoRaise e)) w =
          Some (w1, [ActAddError (TaskOf DisplayLoop)
                       (error_entry ("Display loop error: " +:+ e) w);
                     ActSleep (TaskOf DisplayLoop) 1]) /\
        error_list w1 =
          push_error (error_entry ("Display loop error: " +:+ e) w) (error_list w) /\
        tasks w1 DisplayLoop = Sleeping (clock w + 1) /\
        (forall t, t <> DisplayLoop -> tasks w1 t = tasks w t) /\
        heap w1 = heap w /\ disk w1 = disk w /\ sup w1 = sup w /\ clock w1 = clock w).
Proof.
  intros Hrun.
  assert (Hs0 : store_schema (main t0 file).1).
  { destruct (load_module_schema t0 file) as (td & r & hd & H). by exists td, r, hd. }
  assert (Hl0 : (length (error_list (main t0 file).1) <= MAX_ERRORS_DISPLAYED)%nat)
    by (cbn; lia).
  destruct (run_display_accounting _ _ _ _ Hs0 Hl0 Hrun) as [He Hsl].
  split; [exact He|]. split; [exact Hsl|].
  intros e Hr. eexists. cbn [step]. rewrite Hr. split; [reflexivity|].
  cbn [display_loop_tick task_except fst error_list tasks heap disk sup clock
       set_task set_tasks add_error set_error_list].
  split; [reflexivity|]. split; [by rewrite decide_True|].
  split; [intros t Ht; by rewrite decide_False|]. done.
Qed.

Lemma display_errors_come_from_terminal_witness :
  exists w acts,
    run (sample_flight ++ [EvTime 1; EvDisplay (IoRaise "broken pipe")])
        (main sample_start None).1 = Some (w, acts) /\
    errors_of (TaskOf DisplayLoop) acts = ["[15:30:47] Display loop error: broken pipe"] /\
    sleeps_of (TaskOf DisplayLoop) acts = [1; 1].
Proof.
  destruct (run (sample_flight ++ [EvTime 1; EvDisplay (IoRaise "broken pipe")])
                (main sample_start None).1) as [[w acts]|] eqn:Hr;
    [|vm_compute in Hr; discriminate Hr].
  destruct (display_errors_come_from_terminal _ _ _ _ _ Hr) as (_ & Hsl & _).
  exists w, acts. split; [reflexivity|]. split; [|exact Hsl].
  vm_compute in Hr. injection Hr as _ <-. vm_compute. reflexivity.
Defined.
(** ** The error log over a run *)

Section Recorded.

Lemma recorded_app (a1 a2 : list action) : recorded (a1 ++ a2) = recorded a1 ++ recorded a2.
Proof. apply omap_app. Qed.

Lemma recorded_refresh (lines : list string) (rest : list action) :
  recorded (ActClear :: map ActPrint lines ++ rest) = recorded rest.
Proof.
  unfold recorded. change (ActClear :: ?l) with ([ActClear] ++ l).
  by rewrite omap_app, omap_prints.
Qed.

Lemma add_error_refresh (who : Coroutine) (entry : string) (lines : list string)
      (rest : list action) :
  ActAddError who entry ∈ ActClear :: map ActPrint lines ++ rest ->
  ActAddError who entry ∈ rest.
Proof.
  intros [[=]|Hin]%elem_of_cons. apply elem_of_app in Hin as [Hin|Hin]; [|done].
  apply list_elem_of_fmap in Hin as (line & [=] & _).
Qed.

Lemma handler_entry (who : Coroutine) (e entry : string) (who' : Coroutine)
      (w : World) (d : Z) :
  who <> TaskOf LogToCsv ->
  ActAddError who' entry ∈
    [ActAddError who (error_entry (error_tag who +:+ e) w); ActSleep who d] ->
  who' <> TaskOf LogToCsv /\ tagged who' entry.
Proof.
  intros Hwho Hin.
  apply elem_of_cons in Hin as [[= -> ->]|Hin]; [split; [done | apply tagged_entry]|].
  apply elem_of_cons in Hin as [[=]|Hin]. by apply elem_of_nil in Hin.
Qed.

(** The log after a step: the entries the step has recorded, pushed
    one by one; each comes from a handler that calls [add_error]. *)
Lemma step_recorded (ev : event) (w w' : World) (acts : list action) :
  step ev w = Some (w', acts) ->
  error_list w' = foldl (fun l e => push_error e l) (error_list w) (recorded acts) /\
  (forall who entry, ActAddError who entry ∈ acts ->
                     who <> TaskOf LogToCsv /\ tagged who entry).
Proof.
  intros Hstep.
  assert (Hcase : (exists io, ev = EvDisplay io) \/ (exists io, ev = EvLog io) \/
                  ((forall io, ev <> EvDisplay io) /\ (forall io, ev <> EvLog io))).
  { destruct ev; try (right; right; by split); [left | right; left]; by eexists. }
  destruct Hcase as [[io ->]|[[io ->]|[Hnd Hnl]]].
  - cbn [step] in Hstep. destruct (runnable _ _); [|discriminate Hstep].
    unfold display_loop_tick in Hstep.
    destruct io as [|e]; [destruct (display_lines w) as [[lines [e|]]|]|];
      try discriminate Hstep.
    + assert (w' = (task_except DisplayLoop e w).1 /\
              acts = ActClear :: map ActPrint lines ++ (task_except DisplayLoop e w).2)
        as [-> ->]
          by (unfold with_actions in Hstep; apply (inj Some) in Hstep;
              split; [exact (eq_sym (f_equal fst Hstep)) | exact (eq_sym (f_equal snd Hstep))]).
      rewrite recorded_refresh. split; [reflexivity|].
      intros who entry Hin%add_error_refresh. cbn [task_except snd] in Hin.
      eapply handler_entry; [|exact Hin]. done.
    + assert (w' = set_task DisplayLoop (Sleeping (clock w + 1)) w /\
              acts = ActClear :: map ActPrint lines ++ [ActSleep (TaskOf DisplayLoop) 1])
        as [-> ->] by (split; congruence).
      rewrite recorded_refresh. split; [reflexivity|].
      intros who entry Hin%add_error_refresh.
      apply elem_of_cons in Hin as [[=]|Hin]. by apply elem_of_nil in Hin.
    + injection Hstep as <- <-. split; [reflexivity|].
      intros who entry Hin. eapply handler_entry; [|exact Hin]. done.
  - cbn [step] in Hstep. destruct (runnable _ _); [|discriminate Hstep].
    apply log_tick_inv in Hstep as (td & hd & Hstep).
    assert (w' = (tick_result io (flat_dict (isoformat (clock w)) td hd) w).1 /\
            acts = (tick_result io (flat_dict (isoformat (clock w)) td hd) w).2)
      as [-> ->] by (by rewrite <- Hstep).
    destruct io as [|e]; [rewrite tick_result_ok | rewrite tick_result_raise]; cbn [fst snd].
    + generalize (writerow header (row_data (flat_dict (isoformat (clock w)) td hd))).
      intros row. split; [by destruct (disk w)|].
      intros who entry Hin. destruct (disk w);
        repeat (apply elem_of_cons in Hin as [[=]|Hin]); by apply elem_of_nil in Hin.
    + split; [reflexivity|]. intros who entry Hin.
      repeat (apply elem_of_cons in Hin as [[=]|Hin]). by apply elem_of_nil in Hin.
  - destruct ev; try (by destruct (Hnd r)); try (by destruct (Hnl r));
      step_inv Hstep; try rewrite apply_item_frame;
      (split; [reflexivity|]); intros who entry Hin;
      try (by apply elem_of_nil in Hin);
      try (eapply handler_entry; [|exact Hin]; done);
      try (apply list_elem_of_fmap in Hin as (? & [=] & _));
      repeat (apply elem_of_cons in Hin as [[=]|Hin]);
      try (by apply elem_of_nil in Hin);
      try (apply list_elem_of_fmap in Hin as (? & [=] & _)).
Qed.

Lemma run_recorded (evs : list event) (w w' : World) (acts : list action) :
  run evs w = Some (w', acts) ->
  error_list w' = foldl (fun l e => push_error e l) (error_list w) (recorded acts) /\
  (forall who entry, ActAddError who entry ∈ acts ->
                     who <> TaskOf LogToCsv /\ tagged who entry).
Proof.
  revert w acts. induction evs as [|ev evs IH]; intros w acts Hr.
  - apply run_nil_inv in Hr as [-> ->]. split; [reflexivity | by intros ? ? ?%elem_of_nil].
  - apply run_cons_inv in Hr as (w1 & a1 & a2 & Hs & Hr & ->).
    destruct (step_recorded _ _ _ _ Hs) as [He1 Hin1].
    destruct (IH _ _ Hr) as [He2 Hin2].
    split; [by rewrite recorded_app, foldl_app, <- He1|].
    intros who entry [Hin|Hin]%elem_of_app; eauto.
Qed.

End Recorded.

(** X11. The error log is the trace of the handlers: after any run it
    holds the last five, oldest first, of the entries it held before
    followed by the entries the run's handlers have passed to
    [add_error], in the order of the calls. Each entry recorded comes
    from the supervisor, a fetcher or the display and carries the tag
    of that handler; [log_to_csv] records none. From the start of the
    script, the log is the last five entries recorded so far. *)
Theorem error_log_is_last_five_recorded (evs : list event) (w w' : World)
        (acts : list action) :
  (length (error_list w) <= MAX_ERRORS_DISPLAYED)%nat ->
  run evs w = Some (w', acts) ->
  error_list w' = PyStr.last_n MAX_ERRORS_DISPLAYED (error_list w ++ recorded acts) /\
  (error_list w = [] ->
   error_list w' = PyStr.last_n MAX_ERRORS_DISPLAYED (recorded acts)) /\
  (forall who entry, ActAddError who entry ∈ acts ->
                     who <> TaskOf LogToCsv /\ tagged who entry) /\
  errors_of (TaskOf LogToCsv) acts = [].
Proof.
  intros Hlen Hr. destruct (run_recorded _ _ _ _ Hr) as [He Hin].
  rewrite fold_push_error in He by done.
  split; [exact He|]. split; [intros Hnil; by rewrite He, Hnil|]. split; [exact Hin|].
  destruct (errors_of (TaskOf LogToCsv) acts) as [|entry l] eqn:Herr; [reflexivity|].
  assert (Hentry : entry ∈ errors_of (TaskOf LogToCsv) acts)
    by (rewrite Herr; apply elem_of_cons; by left).
  unfold errors_of in Hentry. apply list_elem_of_omap in Hentry as (a & Ha & Hf).
  destruct a as [| | | | | |who entry'| |]; try discriminate Hf.
  destruct (decide (who = TaskOf LogToCsv)) as [->|Hne]; [|discriminate Hf].
  by destruct (Hin _ _ Ha).
Qed.

Lemma error_log_is_last_five_recorded_witness :
  exists w' acts,
    run (connect_script sample_failed_attempts) (main sample_start None).1
      = Some (w', acts) /\
    recorded acts =
      ["[15:30:45] Main connection error: no device";
       "[15:30:50] Main connection error: link lost";
       "[15:30:56] Main connection error: busy"] /\
    error_list w' = PyStr.last_n MAX_ERRORS_DISPLAYED (recorded acts).
Proof.
  destruct (run (connect_script sample_failed_attempts) (main sample_start None).1)
    as [[w' acts]|] eqn:Hr; [|vm_compute in Hr; discriminate Hr].
  assert (Hlen : (length (error_list (main sample_start None).1)
                  <= MAX_ERRORS_DISPLAYED)%nat) by (vm_compute; lia).
  destruct (error_log_is_last_five_recorded _ _ _ _ Hlen Hr) as (_ & He & _).
  exists w', acts. split; [reflexivity|]. split; [|by apply He].
  vm_compute in Hr. injection Hr as _ <-. vm_compute. reflexivity.
Defined.


(** ** The supervisor outside its retries *)

Section Launch.

Lemma waiting_step (ev : event) (w : World) :
  sup w = SupAwaitConnected ->
  is_waiting ev = true ->
  exists w',
    step ev w = Some (w', []) /\
    sup w' = SupAwaitConnected /\
    clock w' = clock w + elapsed [ev] /\
    tasks w' = tasks w /\ error_list w' = error_list w /\
    heap w' = heap w /\ disk w' = disk w.
Proof.
  intros Hsup Hev. destruct ev as [dt| | |[|]| | | | | | | |]; try discriminate Hev.
  - eexists. split; [reflexivity|]. cbn [elapsed foldr clock set_clock sup].
    repeat split; (done || lia).
  - eexists. cbn [step]. rewrite Hsup. split; [reflexivity|].
    cbn [elapsed foldr]. repeat split; (done || lia).
Qed.

Lemma elapsed_cons (ev : event) (evs : list event) :
  elapsed (ev :: evs) = elapsed [ev] + elapsed evs.
Proof. unfold elapsed. cbn [foldr]. destruct ev; lia. Qed.






End Launch.

(** X13. The loop over the connection states is left by [break] at the
    first connected state, and also when the subscription ends: if
    the stream of states ends without ever reporting a connection,
    [run] goes on and creates the ten tasks all the same, without the
    message of a connected drone and without an entry in the error
    log. *)
Theorem tasks_launched_when_state_stream_ends (n : nat) (w : World) :
  sup w = SupConnecting ->
  run (EvConnect IoOk :: replicate n (EvConnState false) ++ [EvConnStateStop]) w =
    Some (set_sup SupRunning (set_tasks (fun _ => Created) w),
          ActPrint "Connecting to drone..." :: map ActCreateTask all_tasks).
Proof.
  intros Hsup. cbn [run step]. rewrite Hsup. cbn [mbind option_bind].
  rewrite run_app, not_connected_states by reflexivity.
  cbn [mbind option_bind run step sup set_sup]. reflexivity.
Qed.

Lemma tasks_launched_when_state_stream_ends_witness :
  exists w' acts,
    run [EvConnect IoOk; EvConnState false; EvConnState false; EvConnStateStop]
        (main sample_start None).1 = Some (w', acts) /\
    sup w' = SupRunning /\
    tasks w' LogToCsv = Created /\
    printed acts = ["Connecting to drone..."] /\
    error_list w' = [].
Proof.
  pose proof (tasks_launched_when_state_stream_ends 2 (main sample_start None).1 eq_refl)
    as Hr.
  eexists _, _. split; [exact Hr|]. repeat split; reflexivity.
Defined.

(** X14. The wait for the connected state has no timeout: while the
    states delivered are not connected, whatever time passes, the
    supervisor stays in the loop, prints and records nothing, and
    creates no task. *)
Theorem connection_wait_has_no_timeout (evs : list event) (w : World) :
  sup w = SupAwaitConnected ->
  forallb is_waiting evs = true ->
  exists w',
    run evs w = Some (w', []) /\
    sup w' = SupAwaitConnected /\
    clock w' = clock w + elapsed evs /\
    tasks w' = tasks w /\ error_list w' = error_list w /\
    heap w' = heap w /\ disk w' = disk w.
Proof.
  revert w. induction evs as [|ev evs IH]; intros w Hsup Hev.
  - exists w. cbn [elapsed foldr]. repeat split; (done || lia).
  - cbn [forallb] in Hev. apply andb_prop in Hev as [Hev Hevs].
    destruct (waiting_step ev w Hsup Hev) as (w1 & Hs & Hsup1 & Hc1 & Ht1 & He1 & Hh1 & Hd1).
    destruct (IH w1 Hsup1 Hevs) as (w' & Hr & Hsup' & Hc' & Ht' & He' & Hh' & Hd').
    exists w'. cbn [run]. rewrite Hs. cbn [mbind option_bind]. rewrite Hr.
    cbn [mbind option_bind app]. rewrite elapsed_cons.
    repeat split; (congruence || lia).
Qed.

Lemma connection_wait_has_no_timeout_witness :
  exists w',
    run sample_wait (set_sup SupAwaitConnected (load_module sample_start None))
      = Some (w', []) /\
    sup w' = SupAwaitConnected /\
    clock w' = sample_start + 630.
Proof.
  destruct (connection_wait_has_no_timeout sample_wait
              (set_sup SupAwaitConnected (load_module sample_start None)) eq_refl eq_refl)
    as (w' & Hr & Hsup & Hc & _).
  exists w'. split; [exact Hr|]. split; [exact Hsup | exact Hc].
Defined.


